(** * Induction visualizer (src/App.js): model and properties

    The single React component [App] of src/App.js is embedded here.
    JavaScript numbers are read as real numbers (the data model of the
    specification does the same), [Math.cos], [Math.PI] and [Math.abs] as
    [cos], [PI] and [Rabs].  Rounding, infinities and NaN are outside this
    model. *)

From Stdlib Require Import Reals Lra Lia List String Bool Arith.
Import ListNotations.

Set Warnings "-register-all".

Open Scope R_scope.

(** ** Numeric tests of the source, as booleans *)

(** [x >= y] of JavaScript. *)
Definition Rgeb (x y : R) : bool := if Rge_dec x y then true else false.
(** [x <= y]. *)
Definition Rleb (x y : R) : bool := if Rle_dec x y then true else false.
(** [x > y]. *)
Definition Rgtb (x y : R) : bool := if Rgt_dec x y then true else false.
(** [x < y]. *)
Definition Rltb (x y : R) : bool := if Rlt_dec x y then true else false.
(** [Object.is x y] on numbers, as React compares effect dependencies. *)
Definition Rsame (x y : R) : bool := if Req_dec_T x y then true else false.

(** ** Constants (App.js, lines 10-14) *)

Definition screenWidthMeters : R := 0.0709.
Definition screenHeightMeters : R := 0.1436.
Definition phoneArea : R := screenWidthMeters * screenHeightMeters.

(** ** Flux (App.js, line 34) *)

Definition calculateFlux (B A rads : R) : R :=
  B * A * cos (((rads - 90) * PI) / 180).

(** ** Render output

    The part of the JSX tree the properties below speak about: icons, text
    and views with the numeric style keys the source sets. *)

(** A piece of a template literal: literal text, or [x.toFixed(digits)]. *)
Inductive TextPart : Type :=
| Lit (s : string)
| ToFixed (x : R) (digits : nat).

(** Style keys; [None] is an absent or [undefined] key. *)
Record Style : Type := mkStyle {
  height : option R;
  width : option R;
  marginVertical : option R;
  marginHorizontal : option R;
  marginRight : option R;
  paddingHorizontal : option R;
  opacity : option R;
  fontSize : option R;
  overflow : option string
}.

Inductive Element : Type :=
| Entypo (name : string) (size : R) (color : string)
| Text (style : Style) (content : list TextPart)
| View (key : option nat) (style : Style) (children : list Element).

(** [{cond && <X />}]: React renders nothing for [false]. *)
Definition jsx_and (cond : bool) (e : Element) : list Element :=
  if cond then [e] else [].

(** *** Display thresholds and arrow height (App.js, lines 25-31) *)

Definition outOfScreen (theta : R) : bool := Rgeb theta 80.
Definition intoScreen (theta : R) : bool := Rleb theta (-80).

Definition arrowHeight (theta : R) : R :=
  if intoScreen theta || outOfScreen theta
  then 40
  else (Rabs (90 - theta) / 90) * 40.

(** *** EMF indicator row (App.js, lines 112-130) *)

Definition arrowLongLeft : Element := Entypo "arrow-long-left" 20 "red".
Definition arrowLongRight : Element := Entypo "arrow-long-right" 20 "red".

Definition emfLabel (emf : R) : Element :=
  Text {| height := None; width := None; marginVertical := None;
          marginHorizontal := None; marginRight := Some 10;
          paddingHorizontal := None; opacity := None; fontSize := Some 18;
          overflow := None |}
       [Lit "ℰ = "; ToFixed emf 5; Lit " V"].

Definition emfRow (emf : R) : list Element :=
  jsx_and (Rgtb emf 0) arrowLongLeft
  ++ [emfLabel emf]
  ++ jsx_and (Rltb emf 0) arrowLongRight.

(** *** Field-line grid (App.js, lines 142-164) *)

Definition cellHeight (theta : R) : R :=
  if intoScreen theta || outOfScreen theta then 20 else arrowHeight theta.

Definition cellMarginVertical (theta : R) : R :=
  if intoScreen theta || outOfScreen theta then 10
  else (40 - arrowHeight theta) / 2.

Definition cellMarginHorizontal (theta : R) : option R :=
  if intoScreen theta || outOfScreen theta then Some 10 else None.

Definition glyphName (theta : R) : string :=
  if outOfScreen theta then "circle"
  else if intoScreen theta then "circle-with-cross"
  else "arrow-long-down".

Definition glyphSize (theta : R) : R :=
  if outOfScreen theta || intoScreen theta then 20 else 40.

Definition glyph (theta : R) : Element :=
  Entypo (glyphName theta) (glyphSize theta) "blue".

Definition glyphCell (theta fieldStrength : R) (index : nat) : Element :=
  View (Some index)
       {| height := Some (cellHeight theta);
          width := None;
          marginVertical := Some (cellMarginVertical theta);
          overflow := Some "hidden"%string;
          marginHorizontal := cellMarginHorizontal theta;
          marginRight := None;
          paddingHorizontal := Some 15;
          opacity := Some (fieldStrength / 10);
          fontSize := None |}
       [glyph theta].

Definition spacer (index : nat) : Element :=
  View (Some index)
       {| height := None; width := Some 60; marginVertical := None;
          marginHorizontal := None; marginRight := None;
          paddingHorizontal := None; opacity := None; fontSize := None;
          overflow := None |}
       [].

(** [new Array(50).fill(0).map((_, index) => index % 2 === 0 ? cell : spacer)] *)
Definition fieldLines (theta fieldStrength : R) : list Element :=
  map (fun index : nat =>
         if (index mod 2 =? 0)%nat
         then glyphCell theta fieldStrength index
         else spacer index)
      (seq 0 50).

(** A slot that holds a glyph: a view with an icon child. *)
Definition rendersGlyph (e : Element) : bool :=
  match e with
  | View _ _ [Entypo _ _ _] => true
  | _ => false
  end.

(** A slot that is an empty view, used for spacing only. *)
Definition rendersSpacer (e : Element) : bool :=
  match e with
  | View _ _ [] => true
  | _ => false
  end.

(** The [width] style of a view. *)
Definition viewWidth (e : Element) : option R :=
  match e with
  | View _ st _ => width st
  | _ => None
  end.

(** Vertical extent of a box in the layout: its height plus the vertical
    margin above and below. *)
Definition verticalExtent (h m : R) : R := h + 2 * m.

(** ** Component state (App.js, lines 17-21)

    The five [useState] cells.  A value of this type is also what the
    closures made during one render see: they close over the constants
    [theta], [fieldStrength], [phi], [emf] and [prevPhi] of that render. *)

Record State : Type := mkState {
  theta : R;
  fieldStrength : R;
  phi : R;
  emf : R;
  prevPhi : R
}.

(** The [useState] initial values. *)
Definition initialState : State :=
  {| theta := 0; fieldStrength := 1; phi := 0; emf := 0; prevPhi := 0 |}.

Definition setTheta (v : R) (s : State) : State :=
  {| theta := v; fieldStrength := fieldStrength s; phi := phi s;
     emf := emf s; prevPhi := prevPhi s |}.

Definition setFieldStrength (v : R) (s : State) : State :=
  {| theta := theta s; fieldStrength := v; phi := phi s;
     emf := emf s; prevPhi := prevPhi s |}.

Definition setPhi (v : R) (s : State) : State :=
  {| theta := theta s; fieldStrength := fieldStrength s; phi := v;
     emf := emf s; prevPhi := prevPhi s |}.

Definition setEmf (v : R) (s : State) : State :=
  {| theta := theta s; fieldStrength := fieldStrength s; phi := phi s;
     emf := v; prevPhi := prevPhi s |}.

Definition setPrevPhi (v : R) (s : State) : State :=
  {| theta := theta s; fieldStrength := fieldStrength s; phi := phi s;
     emf := emf s; prevPhi := v |}.

(** ** Closures of a render

    Each takes the render [r] it was created in, and returns the state
    updates it queues, as a function on the current state. *)

(** The flux effect (lines 37-39). *)
Definition fluxEffect (r : State) : State -> State :=
  setPhi (calculateFlux (fieldStrength r) phoneArea (theta r)).

(** Its dependency array [[fieldStrength, theta]]: the effect runs after a
    render when one of the two differs from the render before. *)
Definition fluxDepsChanged (prev r : State) : bool :=
  negb (Rsame (fieldStrength prev) (fieldStrength r)
        && Rsame (theta prev) (theta r)).

(** [calculateEmf] (lines 42-49). *)
Definition calculateEmf (r : State) : State -> State :=
  fun s =>
    let deltaPhi := phi r - prevPhi r in
    let deltaT := 1 in
    setPrevPhi (phi r) (setEmf (-1 * 10 * (deltaPhi / deltaT)) s).

(** The slider's [onValueChange] (lines 172-174). *)
Definition onValueChange (newFieldStrength : R) : State -> State :=
  setFieldStrength newFieldStrength.

(** ** Sensor data and errors *)

Record Rotation : Type := mkRotation { alpha : R; beta : R; gamma : R }.

(** What the platform hands to a listener; [rotation = None] is a
    measurement without the [rotation] property. *)
Record DeviceMotionMeasurement : Type := mkMeasurement {
  rotation : option Rotation
}.

(** The measurement the platform delivers for a rotation [b] (radians)
    about the axis the source reads. *)
Definition measurement (b : R) : DeviceMotionMeasurement :=
  {| rotation := Some {| alpha := 0; beta := b; gamma := 0 |} |}.

Inductive Error : Type :=
| TypeError (msg : string).

Inductive Outcome (A : Type) : Type :=
| Done (a : A)
| Thrown (e : Error).
Arguments Done {A} a.
Arguments Thrown {A} e.

Definition bind {A B : Type} (m : Outcome A) (k : A -> Outcome B) : Outcome B :=
  match m with
  | Done a => k a
  | Thrown e => Thrown e
  end.

Notation "x <- m ;; k" := (bind m (fun x => k))
  (at level 61, m at next level, right associativity).

(** [data.rotation.beta]: reading a property of [undefined] throws. *)
Definition rotationBeta (data : DeviceMotionMeasurement) : Outcome R :=
  match rotation data with
  | Some rot => Done (beta rot)
  | None => Thrown (TypeError "undefined is not an object (evaluating 'data.rotation.beta')")
  end.

(** The motion listener (lines 83-90), created by the mount effect of
    render [r]: [theta] in its body is the [theta] of that render. *)
Definition listener (r : State) (data : DeviceMotionMeasurement)
  : Outcome (State -> State) :=
  b <- rotationBeta data ;;
  let angle := (b * 180) / PI in
  if Rgeb (Rabs (theta r - angle)) 1
  then Done (setTheta angle)
  else Done (fun s => s).

(** ** The mounted component and its surroundings *)

(** Calls made to the platform and to the timer API, latest first. *)
Inductive Call : Type :=
| isAvailableAsync
| setUpdateInterval (ms : R)
| addListener
| remove
| setInterval (delay : R)
| clearInterval.

Record Instance : Type := mkInstance {
  hooks : State;                (* the [useState] cells *)
  mounted : bool;
  savedCallback : State;        (* render whose [calculateEmf] is in [savedCallback.current] *)
  interval : bool;              (* the timer of [useInterval] is running *)
  pending : option State;       (* [isAvailableAsync()] not settled; the render its [then] callback belongs to *)
  subscriber : option State;    (* [let subscriber]; the render its listener belongs to *)
  registered : bool;            (* the platform still holds that listener *)
  calls : list Call
}.

Definition withHooks (s : State) (i : Instance) : Instance :=
  {| hooks := s; mounted := mounted i; savedCallback := savedCallback i;
     interval := interval i; pending := pending i;
     subscriber := subscriber i; registered := registered i;
     calls := calls i |}.

Definition withSavedCallback (r : State) (i : Instance) : Instance :=
  {| hooks := hooks i; mounted := mounted i; savedCallback := r;
     interval := interval i; pending := pending i;
     subscriber := subscriber i; registered := registered i;
     calls := calls i |}.

(** Render to a fixed point after the state held [prev] at the last render:
    the flux effect runs if its dependencies changed (its [setPhi] causes one
    more render, with unchanged dependencies), and the effect of
    [useInterval] without dependency array (lines 55-57) stores the
    [calculateEmf] of the last render. *)
Definition rerender (prev : State) (i : Instance) : Instance :=
  let r := hooks i in
  let s := if fluxDepsChanged prev r then fluxEffect r r else r in
  withSavedCallback s (withHooks s i).

(** A queued state update: applied and rendered while mounted, dropped after
    unmount. *)
Definition update (f : State -> State) (i : Instance) : Instance :=
  if mounted i
  then rerender (hooks i) (withHooks (f (hooks i)) i)
  else i.

(** First render and its effects, in source order: flux effect, saved
    callback, [setInterval(tick, 1000)], then the mount effect, which sets
    [subscriber = null] and calls [isAvailableAsync()]. *)
Definition mount : Instance :=
  let r := initialState in
  let s := fluxEffect r r in
  {| hooks := s; mounted := true; savedCallback := s;
     interval := true; pending := Some r;
     subscriber := None; registered := false;
     calls := [isAvailableAsync; setInterval 1000] |}.

Inductive Event : Type :=
| Resolved                                   (* the promise of [isAvailableAsync()] resolves *)
| Motion (data : DeviceMotionMeasurement)    (* the platform has a new measurement *)
| Tick                                       (* the 1000 ms timer fires *)
| ValueChange (newFieldStrength : R)         (* the slider is moved *)
| Unmount.

(** The [then] callback (lines 78-92), made in render [r]. *)
Definition onResolved (isAvailable : bool) (r : State) (i : Instance) : Instance :=
  if isAvailable
  then {| hooks := hooks i; mounted := mounted i;
          savedCallback := savedCallback i; interval := interval i;
          pending := None;
          subscriber := Some r; registered := true;
          calls := addListener :: setUpdateInterval 500 :: calls i |}
  else {| hooks := hooks i; mounted := mounted i;
          savedCallback := savedCallback i; interval := interval i;
          pending := None;
          subscriber := subscriber i; registered := registered i;
          calls := calls i |}.

(** The two effect cleanups on unmount: [clearInterval(interval)] (line 65)
    and [if (subscriber) subscriber.remove()] (lines 94-98). *)
Definition cleanup (i : Instance) : Instance :=
  match subscriber i with
  | Some _ =>
      {| hooks := hooks i; mounted := false;
         savedCallback := savedCallback i; interval := false;
         pending := pending i;
         subscriber := subscriber i; registered := false;
         calls := remove :: clearInterval :: calls i |}
  | None =>
      {| hooks := hooks i; mounted := false;
         savedCallback := savedCallback i; interval := false;
         pending := pending i;
         subscriber := subscriber i; registered := registered i;
         calls := clearInterval :: calls i |}
  end.

(** One event of the single-threaded event loop.  [isAvailable] is what the
    platform reports. *)
Definition step (isAvailable : bool) (i : Instance) (e : Event) : Outcome Instance :=
  match e with
  | Resolved =>
      match pending i with
      | Some r => Done (onResolved isAvailable r i)
      | None => Done i
      end
  | Motion data =>
      match subscriber i with
      | Some r =>
          if registered i
          then f <- listener r data ;; Done (update f i)
          else Done i
      | None => Done i
      end
  | Tick =>
      if interval i
      then Done (update (calculateEmf (savedCallback i)) i)
      else Done i
  | ValueChange newFieldStrength =>
      if mounted i
      then Done (update (onValueChange newFieldStrength) i)
      else Done i
  | Unmount =>
      if mounted i then Done (cleanup i) else Done i
  end.

Fixpoint runFrom (isAvailable : bool) (i : Instance) (events : list Event)
  : Outcome Instance :=
  match events with
  | [] => Done i
  | e :: rest =>
      i' <- step isAvailable i e ;;
      runFrom isAvailable i' rest
  end.

(** The screen from activation through a sequence of events. *)
Definition run (isAvailable : bool) (events : list Event) : Outcome Instance :=
  runFrom isAvailable mount events.

(** ** Invariants of the running screen *)

(** What every reachable instance satisfies: the saved callback belongs to
    the current render, the timer runs exactly while the screen is mounted,
    the closures of the mount effect belong to the first render, and the
    platform holds a listener only if [subscriber] is set. *)
Record Consistent (i : Instance) : Prop := mkConsistent {
  saved_is_current : savedCallback i = hooks i;
  timer_while_mounted : interval i = mounted i;
  pending_from_mount : forall r, pending i = Some r -> r = initialState;
  subscriber_from_mount : forall r, subscriber i = Some r -> r = initialState;
  registered_has_subscriber : registered i = true -> subscriber i <> None
}.

(** What holds of the screen while the platform reports no motion sensor. *)
Record NoSensor (i : Instance) : Prop := mkNoSensor {
  no_subscriber : subscriber i = None;
  not_registered : registered i = false;
  theta_initial : theta (hooks i) = 0;
  no_remove : ~ In remove (calls i);
  no_addListener : ~ In addListener (calls i)
}.

(** ** Observations on the call log and on the rendered grid *)

Definition isSetInterval (c : Call) : bool :=
  match c with setInterval _ => true | _ => false end.
Definition isClearInterval (c : Call) : bool :=
  match c with clearInterval => true | _ => false end.
Definition isIsAvailableAsync (c : Call) : bool :=
  match c with isAvailableAsync => true | _ => false end.
Definition isSetUpdateInterval (c : Call) : bool :=
  match c with setUpdateInterval _ => true | _ => false end.
Definition isAddListener (c : Call) : bool :=
  match c with addListener => true | _ => false end.
Definition isRemove (c : Call) : bool :=
  match c with remove => true | _ => false end.

(** How many of the calls made so far satisfy [p]. *)
Definition countCalls (p : Call -> bool) (i : Instance) : nat :=
  List.length (filter p (calls i)).

(** The React [key] of an element. *)
Definition elementKey (e : Element) : option nat :=
  match e with
  | View k _ _ => k
  | _ => None
  end.

(** The [opacity] style of a view. *)
Definition viewOpacity (e : Element) : option R :=
  match e with
  | View _ st _ => opacity st
  | _ => None
  end.

(** Bookkeeping of the two subscriptions (timer and motion listener) that
    every reachable instance satisfies. *)
Record Accounted (i : Instance) : Prop := mkAccounted {
  acc_setInterval : countCalls isSetInterval i = 1%nat;
  acc_isAvailable : countCalls isIsAvailableAsync i = 1%nat;
  acc_clear : countCalls isClearInterval i = if mounted i then 0%nat else 1%nat;
  acc_add : countCalls isAddListener i
            = match subscriber i with Some _ => 1%nat | None => 0%nat end;
  acc_rate : countCalls isSetUpdateInterval i = countCalls isAddListener i;
  acc_remove : countCalls isRemove i
               = match subscriber i with
                 | Some _ => if registered i then 0%nat else 1%nat
                 | None => 0%nat
                 end;
  acc_pending : subscriber i <> None -> pending i = None;
  acc_live : mounted i = true -> subscriber i <> None -> registered i = true
}.

(** The listener was added after the screen was unmounted, and is still
    held by the platform. *)
Record Leaked (i : Instance) : Prop := mkLeaked {
  leaked_unmounted : mounted i = false;
  leaked_settled : pending i = None;
  leaked_registered : registered i = true;
  leaked_added : In addListener (calls i);
  leaked_not_removed : ~ In remove (calls i)
}.

(** The stored flux is the flux of the stored field strength and tilt. *)
Definition FluxCurrent (s : State) : Prop :=
  phi s = calculateFlux (fieldStrength s) phoneArea (theta s).

(** Before the availability promise settles: nothing subscribed, nothing
    removed. *)
Record Unsettled (i : Instance) : Prop := mkUnsettled {
  unsettled_pending : pending i <> None;
  unsettled_subscriber : subscriber i = None;
  unsettled_registered : registered i = false;
  unsettled_not_removed : ~ In remove (calls i)
}.

(** * Properties *)

(** ** The numeric tests decide the comparisons they stand for *)

Lemma Rgeb_spec (x y : R) : reflect (x >= y) (Rgeb x y).
Proof. unfold Rgeb. destruct (Rge_dec x y); constructor; assumption. Qed.

Lemma Rleb_spec (x y : R) : reflect (x <= y) (Rleb x y).
Proof. unfold Rleb. destruct (Rle_dec x y); constructor; assumption. Qed.

Lemma Rgtb_spec (x y : R) : reflect (x > y) (Rgtb x y).
Proof. unfold Rgtb. destruct (Rgt_dec x y); constructor; assumption. Qed.

Lemma Rltb_spec (x y : R) : reflect (x < y) (Rltb x y).
Proof. unfold Rltb. destruct (Rlt_dec x y); constructor; assumption. Qed.

Lemma Rsame_spec (x y : R) : reflect (x = y) (Rsame x y).
Proof. unfold Rsame. destruct (Req_dec_T x y); constructor; assumption. Qed.

Lemma Rsame_refl (x : R) : Rsame x x = true.
Proof. destruct (Rsame_spec x x); congruence. Qed.

(** Decide every numeric test in the goal and keep the facts. *)
Ltac tests :=
  repeat match goal with
    | |- context [Rgeb ?x ?y] => destruct (Rgeb_spec x y)
    | |- context [Rleb ?x ?y] => destruct (Rleb_spec x y)
    | |- context [Rgtb ?x ?y] => destruct (Rgtb_spec x y)
    | |- context [Rltb ?x ?y] => destruct (Rltb_spec x y)
    end;
  cbn [orb andb negb].

Lemma extremes_spec (theta : R) :
  intoScreen theta || outOfScreen theta = true <-> theta <= -80 \/ theta >= 80.
Proof.
  unfold intoScreen, outOfScreen. tests; split; intros H;
    try reflexivity; try discriminate; try (left; lra); try (right; lra).
  destruct H; lra.
Qed.

Lemma not_extremes (theta : R) :
  -80 < theta < 80 -> intoScreen theta || outOfScreen theta = false.
Proof.
  intros H. unfold intoScreen, outOfScreen. tests; try reflexivity; lra.
Qed.

Lemma at_extremes (theta : R) :
  theta <= -80 \/ theta >= 80 -> intoScreen theta || outOfScreen theta = true.
Proof. apply extremes_spec. Qed.

Lemma arrowHeight_inside (theta : R) :
  -80 < theta < 80 -> arrowHeight theta = (Rabs (90 - theta) / 90) * 40.
Proof. intros H. unfold arrowHeight. now rewrite not_extremes. Qed.

Lemma arrowHeight_below_90 (theta : R) :
  -80 < theta < 80 -> arrowHeight theta = ((90 - theta) / 90) * 40.
Proof.
  intros H. rewrite arrowHeight_inside by assumption.
  rewrite Rabs_pos_eq by lra. reflexivity.
Qed.

(** ** Flux *)

Lemma phoneArea_value : phoneArea = 0.01018124.
Proof. unfold phoneArea, screenWidthMeters, screenHeightMeters. lra. Qed.

(** C1: [calculateFlux B A d] is [B * A * cos (((d - 90) * PI) / 180)] for all
    reals; with field 1, the coil area [0.0709 * 0.1436 = 0.01018124] and
    angle 90 the flux is that area. *)
Theorem calculateFlux_formula :
  (forall B A d : R, calculateFlux B A d = B * A * cos (((d - 90) * PI) / 180))
  /\ phoneArea = 0.0709 * 0.1436
  /\ phoneArea = 0.01018124
  /\ calculateFlux 1 phoneArea 90 = phoneArea
  /\ calculateFlux 1 phoneArea 90 = 0.01018124.
Proof.
  assert (H90 : calculateFlux 1 phoneArea 90 = phoneArea).
  { unfold calculateFlux.
    replace (((90 - 90) * PI) / 180) with 0 by lra.
    rewrite cos_0. lra. }
  repeat split; try reflexivity; try exact phoneArea_value; try exact H90.
  rewrite H90. exact phoneArea_value.
Qed.

(** ** EMF indicator row *)

(** C4: the indicator row is, for a positive EMF, the left arrow followed by
    the label; for a negative EMF, the label followed by the right arrow;
    for a zero EMF, the label alone. *)
Theorem emfRow_configuration (e : R) :
  (e > 0 -> emfRow e = [arrowLongLeft; emfLabel e])
  /\ (e < 0 -> emfRow e = [emfLabel e; arrowLongRight])
  /\ (e = 0 -> emfRow e = [emfLabel e]).
Proof.
  unfold emfRow, jsx_and.
  repeat split; intros H; tests; try reflexivity; lra.
Qed.

Lemma emfRow_configuration_witness :
  emfRow 1 = [arrowLongLeft; emfLabel 1]
  /\ emfRow (-1) = [emfLabel (-1); arrowLongRight]
  /\ emfRow 0 = [emfLabel 0].
Proof.
  split; [| split].
  - apply (proj1 (emfRow_configuration 1)). lra.
  - apply (proj1 (proj2 (emfRow_configuration (-1)))). lra.
  - apply (proj2 (proj2 (emfRow_configuration 0))). reflexivity.
Defined.

(** ** Field-line grid *)

Lemma fieldLines_nth (theta B : R) (index : nat) :
  (index < 50)%nat ->
  nth_error (fieldLines theta B) index
  = Some (if (index mod 2 =? 0)%nat
          then glyphCell theta B index
          else spacer index).
Proof.
  intros H. unfold fieldLines.
  rewrite nth_error_map.
  assert (Hs : nth_error (seq 0 50) index = Some index).
  { rewrite nth_error_nth' with (d := O) by (rewrite length_seq; exact H).
    rewrite seq_nth by exact H. reflexivity. }
  rewrite Hs. reflexivity.
Qed.

Lemma fieldLines_even (theta B : R) (index : nat) :
  (index < 50)%nat -> Nat.even index = true ->
  nth_error (fieldLines theta B) index = Some (glyphCell theta B index).
Proof.
  intros H E. rewrite fieldLines_nth by exact H.
  apply Nat.even_spec in E. destruct E as [k ->].
  replace ((2 * k) mod 2)%nat with 0%nat; [reflexivity|].
  symmetry. rewrite Nat.mul_comm. apply Nat.Div0.mod_mul.
Qed.

Lemma fieldLines_odd (theta B : R) (index : nat) :
  (index < 50)%nat -> Nat.odd index = true ->
  nth_error (fieldLines theta B) index = Some (spacer index).
Proof.
  intros H E. rewrite fieldLines_nth by exact H.
  apply Nat.odd_spec in E. destruct E as [k ->].
  replace ((2 * k + 1) mod 2)%nat with 1%nat; [reflexivity|].
  symmetry. rewrite Nat.add_comm, Nat.mul_comm, Nat.Div0.mod_add. reflexivity.
Qed.

(** C5: the glyph of the even slots is the circle of size 20 when
    [theta >= 80], else the circle with cross of size 20 when
    [theta <= -80], else the long down arrow of size 40; 79.999 gives the
    arrow, 80 the circle, -80 the circle with cross. *)
Theorem glyph_selection (theta : R) :
  (theta >= 80 -> glyph theta = Entypo "circle" 20 "blue")
  /\ (theta <= -80 -> glyph theta = Entypo "circle-with-cross" 20 "blue")
  /\ (-80 < theta < 80 -> glyph theta = Entypo "arrow-long-down" 40 "blue")
  /\ (forall (B : R) (index : nat),
        (index < 50)%nat -> Nat.even index = true ->
        exists st,
          nth_error (fieldLines theta B) index
          = Some (View (Some index) st [glyph theta]))
  /\ glyph 79.999 = Entypo "arrow-long-down" 40 "blue"
  /\ glyph 80 = Entypo "circle" 20 "blue"
  /\ glyph (-80) = Entypo "circle-with-cross" 20 "blue".
Proof.
  assert (G : forall t,
             (t >= 80 -> glyph t = Entypo "circle" 20 "blue")
             /\ (t <= -80 -> glyph t = Entypo "circle-with-cross" 20 "blue")
             /\ (-80 < t < 80 -> glyph t = Entypo "arrow-long-down" 40 "blue")).
  { intros t. unfold glyph, glyphName, glyphSize, outOfScreen, intoScreen.
    repeat split; intros; tests; try reflexivity; lra. }
  destruct (G theta) as (G1 & G2 & G3).
  split; [exact G1 | split; [exact G2 | split; [exact G3 | split]]].
  - intros B index H E. eexists.
    rewrite fieldLines_even by assumption. reflexivity.
  - split; [| split].
    + apply (G 79.999); lra.
    + apply (G 80); lra.
    + apply (G (-80)); lra.
Qed.

Lemma glyph_selection_witness :
  glyph 85 = Entypo "circle" 20 "blue"
  /\ glyph (-85) = Entypo "circle-with-cross" 20 "blue"
  /\ glyph 30 = Entypo "arrow-long-down" 40 "blue"
  /\ exists st,
       nth_error (fieldLines 30 1) 4 = Some (View (Some 4%nat) st [glyph 30]).
Proof.
  split; [| split; [| split]].
  - apply (proj1 (glyph_selection 85)). lra.
  - apply (proj1 (proj2 (glyph_selection (-85)))). lra.
  - apply (proj1 (proj2 (proj2 (glyph_selection 30)))). lra.
  - apply (proj1 (proj2 (proj2 (proj2 (glyph_selection 30)))) 1 4%nat).
    + lia.
    + reflexivity.
Defined.

(** ** Arrow height and cell layout *)

(** C6, the part that fails: of two angles inside (-80, 80), the one farther
    from 90 has the larger arrow height, so the height does not decrease
    with the distance from 90. *)
Lemma arrowHeight_not_decreasing_in_distance :
  (-80 < 45 < 80) /\ (-80 < 0 < 80)
  /\ Rabs (90 - 45) < Rabs (90 - 0)
  /\ arrowHeight 45 = 20 /\ arrowHeight 0 = 40
  /\ ~ (forall t1 t2 : R,
          -80 < t1 < 80 -> -80 < t2 < 80 ->
          Rabs (90 - t1) <= Rabs (90 - t2) ->
          arrowHeight t2 <= arrowHeight t1).
Proof.
  assert (H45 : arrowHeight 45 = 20).
  { rewrite arrowHeight_below_90 by lra. lra. }
  assert (H0 : arrowHeight 0 = 40).
  { rewrite arrowHeight_below_90 by lra. lra. }
  assert (D : Rabs (90 - 45) < Rabs (90 - 0)).
  { rewrite !Rabs_pos_eq by lra. lra. }
  repeat split; try lra; try assumption.
  intros H. specialize (H 45 0). rewrite H45, H0 in H.
  assert (40 <= 20) by (apply H; lra). lra.
Qed.

(** C6, amended: inside (-80, 80) the arrow height is
    [(|90 - theta| / 90) * 40], and it grows strictly with the distance of
    [theta] from 90: the arrow shrinks as the device comes closer to 90. *)
Theorem arrowHeight_increasing_in_distance :
  (forall theta : R,
      -80 < theta < 80 -> arrowHeight theta = (Rabs (90 - theta) / 90) * 40)
  /\ (forall t1 t2 : R,
        -80 < t1 < 80 -> -80 < t2 < 80 ->
        Rabs (90 - t1) < Rabs (90 - t2) ->
        arrowHeight t1 < arrowHeight t2).
Proof.
  split.
  - exact arrowHeight_inside.
  - intros t1 t2 H1 H2 D.
    rewrite !arrowHeight_inside by assumption. lra.
Qed.

Lemma arrowHeight_increasing_in_distance_witness :
  arrowHeight 45 = (Rabs (90 - 45) / 90) * 40
  /\ arrowHeight 45 < arrowHeight 0.
Proof.
  split.
  - apply (proj1 arrowHeight_increasing_in_distance 45). lra.
  - apply (proj2 arrowHeight_increasing_in_distance 45 0).
    + lra.
    + lra.
    + rewrite !Rabs_pos_eq by lra. lra.
Defined.

Lemma cell_at_extremes (theta : R) :
  theta <= -80 \/ theta >= 80 ->
  cellHeight theta = 20 /\ cellMarginVertical theta = 10.
Proof.
  intros H. unfold cellHeight, cellMarginVertical.
  rewrite at_extremes by assumption. split; reflexivity.
Qed.

Lemma cell_inside (theta : R) :
  -80 < theta < 80 ->
  cellHeight theta = arrowHeight theta
  /\ cellMarginVertical theta = (40 - arrowHeight theta) / 2.
Proof.
  intros H. unfold cellHeight, cellMarginVertical.
  rewrite not_extremes by assumption. split; reflexivity.
Qed.

Lemma cell_extent (theta : R) :
  verticalExtent (cellHeight theta) (cellMarginVertical theta) = 40.
Proof.
  unfold verticalExtent.
  destruct (Rle_dec theta (-80)) as [L | L].
  - destruct (cell_at_extremes theta) as [-> ->]; [left; exact L | lra].
  - destruct (Rge_dec theta 80) as [G | G].
    + destruct (cell_at_extremes theta) as [-> ->]; [right; exact G | lra].
    + destruct (cell_inside theta) as [-> ->]; lra.
Qed.

(** C7: every glyph cell of the grid has height plus twice its vertical
    margin equal to 40: height 20 and margin 10 at the extremes, height
    [arrowHeight] and margin [(40 - arrowHeight) / 2] otherwise. *)
Theorem glyphCell_extent (theta : R) :
  verticalExtent (cellHeight theta) (cellMarginVertical theta) = 40
  /\ (theta <= -80 \/ theta >= 80 ->
      cellHeight theta = 20 /\ cellMarginVertical theta = 10)
  /\ (-80 < theta < 80 ->
      cellHeight theta = arrowHeight theta
      /\ cellMarginVertical theta = (40 - arrowHeight theta) / 2)
  /\ (forall (B : R) (index : nat),
        (index < 50)%nat -> Nat.even index = true ->
        exists st children,
          nth_error (fieldLines theta B) index
          = Some (View (Some index) st children)
          /\ height st = Some (cellHeight theta)
          /\ marginVertical st = Some (cellMarginVertical theta)).
Proof.
  split; [apply cell_extent |].
  split; [apply cell_at_extremes |].
  split; [apply cell_inside |].
  intros B index H E. do 2 eexists.
  rewrite fieldLines_even by assumption.
  unfold glyphCell. split; [reflexivity | split; reflexivity].
Qed.

Lemma glyphCell_extent_witness :
  (cellHeight 85 = 20 /\ cellMarginVertical 85 = 10)
  /\ (cellHeight 45 = arrowHeight 45
      /\ cellMarginVertical 45 = (40 - arrowHeight 45) / 2)
  /\ exists st children,
       nth_error (fieldLines 45 1) 6 = Some (View (Some 6%nat) st children)
       /\ height st = Some (cellHeight 45)
       /\ marginVertical st = Some (cellMarginVertical 45).
Proof.
  split; [| split].
  - apply (proj1 (proj2 (glyphCell_extent 85))). right. lra.
  - apply (proj1 (proj2 (proj2 (glyphCell_extent 45)))). lra.
  - apply (proj2 (proj2 (proj2 (glyphCell_extent 45))) 1 6%nat).
    + lia.
    + reflexivity.
Defined.

(** C10: for [theta] strictly between -80 and 0 the arrow height is above
    40 and below 680/9 (about 75.6, approached as [theta] goes to -80), the
    vertical margin is negative, and the extent of the cell is still 40. *)
Theorem arrowHeight_overshoot :
  (forall theta : R,
      -80 < theta < 0 ->
      cellHeight theta = (Rabs (90 - theta) / 90) * 40
      /\ 40 < cellHeight theta
      /\ cellHeight theta < 680 / 9
      /\ cellMarginVertical theta = (40 - arrowHeight theta) / 2
      /\ cellMarginVertical theta < 0
      /\ verticalExtent (cellHeight theta) (cellMarginVertical theta) = 40)
  /\ 680 / 9 < 75.6
  /\ (forall b : R,
        b < 680 / 9 ->
        exists theta : R, -80 < theta < 0 /\ b < arrowHeight theta).
Proof.
  split; [| split].
  - intros theta H.
    assert (I : -80 < theta < 80) by lra.
    destruct (cell_inside theta I) as [Hh Hm].
    pose proof (arrowHeight_below_90 theta I) as Ha.
    split; [rewrite Hh; apply arrowHeight_inside; exact I |].
    split; [lra |]. split; [lra |]. split; [exact Hm |].
    split; [lra |].
    apply cell_extent.
  - lra.
  - intros b Hb.
    destruct (Rlt_dec b 40) as [S | S].
    + exists (-40). split; [lra |].
      rewrite arrowHeight_below_90 by lra. lra.
    + set (h := (b + 680 / 9) / 2).
      exists (90 - (9 / 4) * h). unfold h.
      split; [lra |].
      rewrite arrowHeight_below_90 by lra. lra.
Qed.

Lemma arrowHeight_overshoot_witness :
  (cellHeight (-45) = (Rabs (90 - -45) / 90) * 40
   /\ 40 < cellHeight (-45)
   /\ cellHeight (-45) < 680 / 9
   /\ cellMarginVertical (-45) = (40 - arrowHeight (-45)) / 2
   /\ cellMarginVertical (-45) < 0
   /\ verticalExtent (cellHeight (-45)) (cellMarginVertical (-45)) = 40)
  /\ exists theta : R, -80 < theta < 0 /\ 75 < arrowHeight theta.
Proof.
  split.
  - apply (proj1 arrowHeight_overshoot (-45)). lra.
  - apply (proj2 (proj2 arrowHeight_overshoot) 75). lra.
Defined.

(** C9: whatever the state, the grid has 50 slots; the slot at an even index
    is a glyph cell, the slot at an odd index an empty view of width 60; 25
    slots render a glyph and 25 are spacers. *)
Theorem fieldLines_composition (s : State) :
  let grid := fieldLines (theta s) (fieldStrength s) in
  List.length grid = 50%nat
  /\ (forall index : nat,
        (index < 50)%nat -> Nat.even index = true ->
        exists e,
          nth_error grid index = Some e
          /\ e = glyphCell (theta s) (fieldStrength s) index
          /\ rendersGlyph e = true /\ rendersSpacer e = false)
  /\ (forall index : nat,
        (index < 50)%nat -> Nat.odd index = true ->
        exists e,
          nth_error grid index = Some e
          /\ e = spacer index
          /\ rendersSpacer e = true /\ rendersGlyph e = false
          /\ viewWidth e = Some 60)
  /\ List.length (filter rendersGlyph grid) = 25%nat
  /\ List.length (filter rendersSpacer grid) = 25%nat.
Proof.
  cbv zeta.
  split; [unfold fieldLines; now rewrite length_map, length_seq |].
  split; [| split; [| split]].
  - intros index H E. eexists.
    split; [apply fieldLines_even; assumption |].
    repeat split.
  - intros index H E. eexists.
    split; [apply fieldLines_odd; assumption |].
    repeat split.
  - reflexivity.
  - reflexivity.
Qed.

Lemma fieldLines_composition_witness :
  (exists e,
      nth_error (fieldLines (theta initialState) (fieldStrength initialState)) 48
      = Some e
      /\ e = glyphCell (theta initialState) (fieldStrength initialState) 48
      /\ rendersGlyph e = true /\ rendersSpacer e = false)
  /\ (exists e,
        nth_error (fieldLines (theta initialState) (fieldStrength initialState)) 49
        = Some e
        /\ e = spacer 49
        /\ rendersSpacer e = true /\ rendersGlyph e = false
        /\ viewWidth e = Some 60).
Proof.
  split.
  - apply (proj1 (proj2 (fieldLines_composition initialState)) 48%nat).
    + lia.
    + reflexivity.
  - apply (proj1 (proj2 (proj2 (fieldLines_composition initialState))) 49%nat).
    + lia.
    + reflexivity.
Defined.

(** ** The running screen *)

Lemma mount_consistent : Consistent mount.
Proof.
  constructor; cbn; try reflexivity; intros; congruence.
Qed.

Lemma update_consistent (f : State -> State) (i : Instance) :
  Consistent i -> Consistent (update f i).
Proof.
  intros C. unfold update.
  destruct (mounted i) eqn:E; [| exact C].
  destruct C as [S T P L G]. constructor; cbn; auto.
Qed.

Lemma step_consistent (a : bool) (i i' : Instance) (e : Event) :
  Consistent i -> step a i e = Done i' -> Consistent i'.
Proof.
  intros C H. pose proof C as [S T P L G].
  destruct e as [| data | | v |]; cbn in H.
  - destruct (pending i) as [r |] eqn:E; [| injection H as <-; exact C].
    injection H as <-. unfold onResolved.
    destruct a; constructor; cbn; auto; discriminate.
  - destruct (subscriber i) as [r |]; [| injection H as <-; exact C].
    destruct (registered i); [| injection H as <-; exact C].
    destruct (listener r data) as [f | err]; cbn in H; [| discriminate].
    injection H as <-. apply update_consistent. exact C.
  - destruct (interval i); injection H as <-;
      [apply update_consistent |]; exact C.
  - destruct (mounted i); injection H as <-;
      [apply update_consistent |]; exact C.
  - destruct (mounted i); injection H as <-; [| exact C].
    unfold cleanup.
    destruct (subscriber i) eqn:E; constructor; cbn; auto; discriminate.
Qed.

Lemma runFrom_consistent (a : bool) (events : list Event) :
  forall i i', Consistent i -> runFrom a i events = Done i' -> Consistent i'.
Proof.
  induction events as [| e rest IH]; intros i i' C H; cbn in H.
  - injection H as <-. exact C.
  - destruct (step a i e) as [j | err] eqn:E; cbn in H; [| discriminate].
    apply (IH j i'); [| exact H].
    apply (step_consistent a i j e C E).
Qed.

Lemma run_consistent (a : bool) (events : list Event) (i : Instance) :
  run a events = Done i -> Consistent i.
Proof. apply runFrom_consistent, mount_consistent. Qed.

Lemma fluxDeps_unchanged (s s' : State) :
  fieldStrength s' = fieldStrength s -> theta s' = theta s ->
  fluxDepsChanged s s' = false.
Proof.
  intros F T. unfold fluxDepsChanged. rewrite F, T, !Rsame_refl. reflexivity.
Qed.

(** Flux rising from 0.01 to 0.02 over one tick gives an EMF of -0.1. *)
Example calculateEmf_sample :
  let r := {| theta := 0; fieldStrength := 1; phi := 0.02; emf := 0;
              prevPhi := 0.01 |} in
  emf (calculateEmf r r) = -0.1 /\ prevPhi (calculateEmf r r) = 0.02.
Proof. cbn. split; lra. Qed.

(** C2: at every tick of the EMF timer, with [phi] and [prevPhi] the stored
    values when the tick starts, the stored EMF becomes
    [-1 * 10 * ((phi - prevPhi) / 1)] and the stored previous flux becomes
    that [phi]; nothing else changes. *)
Theorem tick_emf (isAvailable : bool) (events : list Event) (i : Instance) :
  run isAvailable events = Done i ->
  interval i = true ->
  exists i',
    step isAvailable i Tick = Done i'
    /\ emf (hooks i') = -1 * 10 * ((phi (hooks i) - prevPhi (hooks i)) / 1)
    /\ prevPhi (hooks i') = phi (hooks i)
    /\ phi (hooks i') = phi (hooks i)
    /\ theta (hooks i') = theta (hooks i)
    /\ fieldStrength (hooks i') = fieldStrength (hooks i).
Proof.
  intros R T.
  destruct (run_consistent _ _ _ R) as [S M _ _ _].
  eexists. split.
  - cbn. rewrite T. reflexivity.
  - unfold update. rewrite <- M, T, S. unfold rerender.
    cbn [hooks withHooks withSavedCallback].
    rewrite fluxDeps_unchanged by reflexivity.
    cbn. repeat split.
Qed.

(** A tick after the slider was moved to 5 and one tick has passed. *)
Lemma tick_emf_witness :
  let i := update (calculateEmf (hooks (update (onValueChange 5) mount)))
                  (update (onValueChange 5) mount) in
  run false [ValueChange 5; Tick] = Done i
  /\ exists i',
       step false i Tick = Done i'
       /\ emf (hooks i') = -1 * 10 * ((phi (hooks i) - prevPhi (hooks i)) / 1)
       /\ prevPhi (hooks i') = phi (hooks i)
       /\ phi (hooks i') = phi (hooks i)
       /\ theta (hooks i') = theta (hooks i)
       /\ fieldStrength (hooks i') = fieldStrength (hooks i).
Proof.
  cbv zeta. split.
  - reflexivity.
  - apply (tick_emf false [ValueChange 5; Tick]).
    + reflexivity.
    + reflexivity.
Defined.

(** *** Sensor unavailable *)

Lemma mount_noSensor : NoSensor mount.
Proof.
  constructor; cbn; try reflexivity; intros [H | [H | []]]; discriminate.
Qed.

Lemma theta_rerender (prev : State) (i : Instance) :
  theta (hooks (rerender prev i)) = theta (hooks i).
Proof.
  unfold rerender. cbn. destruct (fluxDepsChanged prev (hooks i)); reflexivity.
Qed.

Lemma update_noSensor (f : State -> State) (i : Instance) :
  (forall s, theta (f s) = theta s) -> NoSensor i -> NoSensor (update f i).
Proof.
  intros F N. unfold update.
  destruct (mounted i) eqn:E; [| exact N].
  destruct N as [S G T R A].
  constructor; try assumption.
  rewrite theta_rerender. cbn. rewrite F. exact T.
Qed.

Lemma step_noSensor (i : Instance) (e : Event) :
  NoSensor i -> exists i', step false i e = Done i' /\ NoSensor i'.
Proof.
  intros N. pose proof N as [S G T R A].
  destruct e as [| data | | v |]; cbn.
  - destruct (pending i) as [r |]; eexists; (split; [reflexivity |]);
      [| exact N].
    constructor; cbn; assumption.
  - rewrite S. eexists. split; [reflexivity | exact N].
  - destruct (interval i); eexists; (split; [reflexivity |]); [| exact N].
    apply update_noSensor; [reflexivity | exact N].
  - destruct (mounted i) eqn:E; eexists; (split; [reflexivity |]);
      [| exact N].
    apply update_noSensor; [reflexivity | exact N].
  - destruct (mounted i) eqn:E; eexists; (split; [reflexivity |]);
      [| exact N].
    unfold cleanup. rewrite S.
    constructor; cbn; try assumption; try reflexivity.
    + intros [H | H]; [discriminate | exact (R H)].
    + intros [H | H]; [discriminate | exact (A H)].
Qed.

Lemma runFrom_noSensor (events : list Event) :
  forall i, NoSensor i ->
            exists i', runFrom false i events = Done i' /\ NoSensor i'.
Proof.
  induction events as [| e rest IH]; intros i N; cbn.
  - exists i. split; [reflexivity | exact N].
  - destruct (step_noSensor i e N) as (j & -> & Nj). cbn.
    apply IH. exact Nj.
Qed.

(** C8: when the platform reports the motion sensor as unavailable, then
    after any sequence of events (sensor measurements of any shape, timer
    ticks, slider moves, unmount) nothing has been thrown, the tilt angle is
    still 0, and neither [addListener] nor [remove] has been called. *)
Theorem sensor_unavailable (events : list Event) :
  exists i,
    run false events = Done i
    /\ theta (hooks i) = 0
    /\ ~ In remove (calls i)
    /\ ~ In addListener (calls i)
    /\ subscriber i = None.
Proof.
  destruct (runFrom_noSensor events mount mount_noSensor) as (i & H & N).
  exists i. destruct N as [S G T R A]. repeat split; assumption.
Qed.

Lemma sensor_unavailable_witness :
  exists i,
    run false [Resolved; Motion {| rotation := None |}; Motion (measurement 1);
               Tick; ValueChange 5; Unmount; Motion (measurement 2)]
    = Done i
    /\ theta (hooks i) = 0
    /\ ~ In remove (calls i)
    /\ ~ In addListener (calls i)
    /\ subscriber i = None.
Proof.
  apply (sensor_unavailable
           [Resolved; Motion {| rotation := None |}; Motion (measurement 1);
            Tick; ValueChange 5; Unmount; Motion (measurement 2)]).
Defined.

(** With a sensor, the same events can throw and do reach [remove]. *)
Example sensor_available_contrast :
  (exists e, run true [Resolved; Motion {| rotation := None |}] = Thrown e)
  /\ (exists i, run true [Resolved; Unmount] = Done i /\ In remove (calls i)).
Proof.
  split.
  - eexists. reflexivity.
  - eexists. split; [reflexivity |]. cbn. left. reflexivity.
Qed.

(** *** The motion listener *)

Lemma angle_of_degrees (d : R) : ((d * PI / 180) * 180) / PI = d.
Proof. field. apply PI_neq0. Qed.

Lemma motion_delivered (a : bool) (i : Instance) (r : State) (b : R) :
  subscriber i = Some r -> registered i = true ->
  step a i (Motion (measurement b))
  = Done (update (if Rgeb (Rabs (theta r - (b * 180) / PI)) 1
                  then setTheta ((b * 180) / PI)
                  else fun s => s) i).
Proof.
  intros S G. cbn [step]. rewrite S, G. unfold listener.
  cbn [rotationBeta measurement rotation beta bind].
  destruct (Rgeb (Rabs (theta r - (b * 180) / PI)) 1); reflexivity.
Qed.

Lemma hooks_update (f : State -> State) (i : Instance) :
  mounted i = true ->
  hooks (update f i)
  = if fluxDepsChanged (hooks i) (f (hooks i))
    then fluxEffect (f (hooks i)) (f (hooks i))
    else f (hooks i).
Proof. intros M. unfold update. rewrite M. reflexivity. Qed.

Lemma theta_update (f : State -> State) (i : Instance) :
  mounted i = true -> theta (hooks (update f i)) = theta (f (hooks i)).
Proof.
  intros M. rewrite hooks_update by exact M.
  destruct (fluxDepsChanged (hooks i) (f (hooks i))); reflexivity.
Qed.

Lemma fieldStrength_update (f : State -> State) (i : Instance) :
  mounted i = true ->
  fieldStrength (hooks (update f i)) = fieldStrength (f (hooks i)).
Proof.
  intros M. rewrite hooks_update by exact M.
  destruct (fluxDepsChanged (hooks i) (f (hooks i))); reflexivity.
Qed.

(** What the listener does on every reachable screen: the measurement is
    compared with the [theta] of the first render, which is 0. *)
Lemma motion_compares_with_first_render
      (a : bool) (events : list Event) (i : Instance) (b : R) :
  run a events = Done i ->
  registered i = true -> mounted i = true ->
  exists i',
    step a i (Motion (measurement b)) = Done i'
    /\ theta (hooks i')
       = if Rgeb (Rabs (0 - (b * 180) / PI)) 1
         then (b * 180) / PI
         else theta (hooks i).
Proof.
  intros R G M.
  destruct (run_consistent _ _ _ R) as [_ _ _ L S].
  specialize (S G).
  destruct (subscriber i) as [r |] eqn:E; [| contradiction].
  rewrite (L r eq_refl) in E.
  eexists. split; [apply (motion_delivered a i initialState b E G) |].
  rewrite theta_update by exact M. cbn [theta initialState].
  destruct (Rgeb (Rabs (0 - (b * 180) / PI)) 1); reflexivity.
Qed.

(** C3 fails on the code: with the stored tilt angle at 45 degrees, a
    measurement of 45.5 degrees (less than 1 degree away) replaces it and the
    flux is recomputed, and a measurement of 0.5 degrees (44.5 degrees away)
    leaves it unchanged. *)
Theorem motion_filter_ignores_stored_theta :
  exists i1 i2 i3 : Instance,
    run true [Resolved; Motion (measurement (45 * PI / 180))] = Done i1
    /\ theta (hooks i1) = 45
    /\ step true i1 (Motion (measurement (45.5 * PI / 180))) = Done i2
    /\ Rabs (45.5 - theta (hooks i1)) < 1
    /\ theta (hooks i2) = 45.5
    /\ phi (hooks i2) = calculateFlux 1 phoneArea 45.5
    /\ step true i1 (Motion (measurement (0.5 * PI / 180))) = Done i3
    /\ Rabs (0.5 - theta (hooks i1)) >= 1
    /\ theta (hooks i3) = 45.
Proof.
  set (i0 := onResolved true initialState mount).
  assert (S0 : subscriber i0 = Some initialState) by reflexivity.
  assert (G0 : registered i0 = true) by reflexivity.
  assert (M0 : mounted i0 = true) by reflexivity.
  assert (A45 : Rgeb (Rabs (0 - 45)) 1 = true).
  { destruct (Rgeb_spec (Rabs (0 - 45)) 1) as [G | G]; [reflexivity |].
    exfalso. apply G. rewrite Rabs_left by lra. lra. }
  assert (A455 : Rgeb (Rabs (0 - 45.5)) 1 = true).
  { destruct (Rgeb_spec (Rabs (0 - 45.5)) 1) as [G | G]; [reflexivity |].
    exfalso. apply G. rewrite Rabs_left by lra. lra. }
  assert (A05 : Rgeb (Rabs (0 - 0.5)) 1 = false).
  { destruct (Rgeb_spec (Rabs (0 - 0.5)) 1) as [G | G]; [| reflexivity].
    exfalso. rewrite Rabs_left in G by lra. lra. }
  set (i1 := update (setTheta 45) i0).
  assert (S1 : subscriber i1 = Some initialState) by reflexivity.
  assert (G1 : registered i1 = true) by reflexivity.
  assert (M1 : mounted i1 = true) by reflexivity.
  assert (T1 : theta (hooks i1) = 45).
  { unfold i1. rewrite theta_update by exact M0. reflexivity. }
  exists i1, (update (setTheta 45.5) i1), (update (fun s => s) i1).
  split.
  { unfold run. cbn [runFrom]. change (step true mount Resolved) with (Done i0).
    cbn [bind]. rewrite (motion_delivered true i0 initialState _ S0 G0).
    rewrite angle_of_degrees. cbn [theta initialState]. rewrite A45.
    reflexivity. }
  split; [exact T1 |].
  split.
  { rewrite (motion_delivered true i1 initialState _ S1 G1).
    rewrite angle_of_degrees. cbn [theta initialState]. rewrite A455.
    reflexivity. }
  split.
  { rewrite T1. rewrite Rabs_pos_eq by lra. lra. }
  split.
  { rewrite theta_update by exact M1. reflexivity. }
  split.
  { rewrite hooks_update by exact M1.
    assert (D : fluxDepsChanged (hooks i1) (setTheta 45.5 (hooks i1)) = true).
    { unfold fluxDepsChanged. cbn [theta setTheta fieldStrength].
      rewrite T1, Rsame_refl.
      destruct (Rsame_spec 45 45.5) as [Q | Q]; [lra | reflexivity]. }
    rewrite D. unfold fluxEffect. cbn [phi setPhi theta setTheta fieldStrength].
    unfold i1. rewrite fieldStrength_update by exact M0. reflexivity. }
  split.
  { rewrite (motion_delivered true i1 initialState _ S1 G1).
    rewrite angle_of_degrees. cbn [theta initialState]. rewrite A05.
    reflexivity. }
  split.
  { rewrite T1. rewrite Rabs_left by lra. lra. }
  rewrite theta_update by exact M1. exact T1.
Qed.

(** * Further properties of the running screen *)

Lemma runFrom_app (a : bool) (l1 l2 : list Event) :
  forall i,
    runFrom a i (l1 ++ l2) = (j <- runFrom a i l1 ;; runFrom a j l2).
Proof.
  induction l1 as [| e l1 IH]; intros i; cbn.
  - reflexivity.
  - destruct (step a i e) as [j | err]; cbn; [apply IH | reflexivity].
Qed.

(** ** The stored flux follows field strength and tilt *)

Lemma update_fluxCurrent (f : State -> State) (i : Instance) :
  (forall s, phi (f s) = phi s) ->
  FluxCurrent (hooks i) -> FluxCurrent (hooks (update f i)).
Proof.
  intros F H. unfold update.
  destruct (mounted i); [| exact H].
  unfold rerender. cbn [hooks withHooks withSavedCallback].
  unfold fluxDepsChanged.
  destruct (Rsame_spec (fieldStrength (hooks i)) (fieldStrength (f (hooks i))))
    as [E1 | E1]; cbn [andb negb]; [| reflexivity].
  destruct (Rsame_spec (theta (hooks i)) (theta (f (hooks i))))
    as [E2 | E2]; cbn [negb]; [| reflexivity].
  unfold FluxCurrent in *. rewrite F, <- E1, <- E2. exact H.
Qed.

Lemma step_fluxCurrent (a : bool) (i i' : Instance) (e : Event) :
  FluxCurrent (hooks i) -> step a i e = Done i' -> FluxCurrent (hooks i').
Proof.
  intros H S. destruct e as [| data | | v |]; cbn in S.
  - destruct (pending i) as [r |]; injection S as <-; [| exact H].
    unfold onResolved. destruct a; exact H.
  - destruct (subscriber i) as [r |]; [| injection S as <-; exact H].
    destruct (registered i); [| injection S as <-; exact H].
    unfold listener in S. destruct (rotationBeta data) as [b | err];
      cbn in S; [| discriminate].
    destruct (Rgeb (Rabs (theta r - b * 180 / PI)) 1);
      injection S as <-; apply update_fluxCurrent; auto.
  - destruct (interval i); injection S as <-; [| exact H].
    apply update_fluxCurrent; auto.
  - destruct (mounted i); injection S as <-; [| exact H].
    apply update_fluxCurrent; auto.
  - destruct (mounted i); injection S as <-; [| exact H].
    unfold cleanup. destruct (subscriber i); exact H.
Qed.

Lemma runFrom_fluxCurrent (a : bool) (events : list Event) :
  forall i i',
    FluxCurrent (hooks i) -> runFrom a i events = Done i' ->
    FluxCurrent (hooks i').
Proof.
  induction events as [| e rest IH]; intros i i' H R; cbn in R.
  - injection R as <-. exact H.
  - destruct (step a i e) as [j | err] eqn:E; cbn in R; [| discriminate].
    apply (IH j i'); [| exact R]. apply (step_fluxCurrent a i j e H E).
Qed.

Lemma run_fluxCurrent (a : bool) (events : list Event) (i : Instance) :
  run a events = Done i -> FluxCurrent (hooks i).
Proof. apply runFrom_fluxCurrent. reflexivity. Qed.

(** X1: after any sequence of events the stored flux is the flux of the
    stored field strength and the stored tilt angle over the phone area. *)
Theorem flux_follows_state (a : bool) (events : list Event) (i : Instance) :
  run a events = Done i ->
  phi (hooks i)
  = calculateFlux (fieldStrength (hooks i)) phoneArea (theta (hooks i)).
Proof.
  intros H. unfold run in H.
  apply (runFrom_fluxCurrent a events mount i); [| exact H].
  unfold FluxCurrent, mount, fluxEffect. reflexivity.
Qed.

Lemma flux_follows_state_witness :
  exists i,
    run true [Resolved; ValueChange 5; Tick; Unmount; ValueChange 7] = Done i
    /\ phi (hooks i)
       = calculateFlux (fieldStrength (hooks i)) phoneArea (theta (hooks i)).
Proof.
  eexists. split.
  - reflexivity.
  - apply (flux_follows_state
             true [Resolved; ValueChange 5; Tick; Unmount; ValueChange 7]).
    reflexivity.
Defined.

(** X2: moving the slider on a mounted screen stores the new field strength
    and the flux of that strength at the current tilt; tilt, EMF, previous
    flux and the subscriptions are untouched. *)
Theorem slider_recomputes_flux
        (a : bool) (events : list Event) (i : Instance) (v : R) :
  run a events = Done i ->
  mounted i = true ->
  exists i',
    step a i (ValueChange v) = Done i'
    /\ fieldStrength (hooks i') = v
    /\ phi (hooks i') = calculateFlux v phoneArea (theta (hooks i))
    /\ theta (hooks i') = theta (hooks i)
    /\ emf (hooks i') = emf (hooks i)
    /\ prevPhi (hooks i') = prevPhi (hooks i)
    /\ calls i' = calls i.
Proof.
  intros R M. pose proof (run_fluxCurrent a events i R) as F.
  eexists. split; [cbn; rewrite M; reflexivity |].
  unfold update. rewrite M. unfold rerender.
  cbn [hooks withHooks withSavedCallback calls].
  unfold fluxDepsChanged, onValueChange.
  cbn [theta fieldStrength setFieldStrength]. rewrite Rsame_refl.
  destruct (Rsame_spec (fieldStrength (hooks i)) v) as [E | E];
    cbn [andb negb]; cbn; repeat split.
  rewrite <- E. exact F.
Qed.

Lemma slider_recomputes_flux_witness :
  exists i',
    step true (update (onValueChange 5) mount) (ValueChange 2.5) = Done i'
    /\ fieldStrength (hooks i') = 2.5
    /\ phi (hooks i')
       = calculateFlux 2.5 phoneArea (theta (hooks (update (onValueChange 5) mount)))
    /\ theta (hooks i') = theta (hooks (update (onValueChange 5) mount))
    /\ emf (hooks i') = emf (hooks (update (onValueChange 5) mount))
    /\ prevPhi (hooks i') = prevPhi (hooks (update (onValueChange 5) mount))
    /\ calls i' = calls (update (onValueChange 5) mount).
Proof.
  apply (slider_recomputes_flux true [ValueChange 5]).
  - reflexivity.
  - reflexivity.
Defined.

(** ** The EMF changes at ticks only *)

Lemma update_keeps_emf (f : State -> State) (i : Instance) :
  (forall s, emf (f s) = emf s /\ prevPhi (f s) = prevPhi s) ->
  emf (hooks (update f i)) = emf (hooks i)
  /\ prevPhi (hooks (update f i)) = prevPhi (hooks i).
Proof.
  intros F. unfold update. destruct (mounted i); [| split; reflexivity].
  unfold rerender. cbn [hooks withHooks withSavedCallback].
  destruct (fluxDepsChanged (hooks i) (f (hooks i))); cbn; apply F.
Qed.

Lemma step_keeps_emf (a : bool) (i i' : Instance) (e : Event) :
  e <> Tick -> step a i e = Done i' ->
  emf (hooks i') = emf (hooks i) /\ prevPhi (hooks i') = prevPhi (hooks i).
Proof.
  intros N S. destruct e as [| data | | v |]; cbn in S.
  - destruct (pending i) as [r |]; injection S as <-; [| split; reflexivity].
    unfold onResolved. destruct a; split; reflexivity.
  - destruct (subscriber i) as [r |]; [| injection S as <-; split; reflexivity].
    destruct (registered i); [| injection S as <-; split; reflexivity].
    unfold listener in S. destruct (rotationBeta data) as [b | err];
      cbn in S; [| discriminate].
    destruct (Rgeb (Rabs (theta r - b * 180 / PI)) 1);
      injection S as <-; apply update_keeps_emf; intros s; split; reflexivity.
  - contradiction.
  - destruct (mounted i); injection S as <-; [| split; reflexivity].
    apply update_keeps_emf. intros s; split; reflexivity.
  - destruct (mounted i); injection S as <-; [| split; reflexivity].
    unfold cleanup. destruct (subscriber i); split; reflexivity.
Qed.

(** X3: over any sequence of events without a timer tick (sensor
    measurements, slider moves, promise resolution, unmount) the stored EMF
    and the stored previous flux keep their values. *)
Theorem emf_changes_only_at_ticks (a : bool) (events : list Event) :
  forall i i' : Instance,
    ~ In Tick events ->
    runFrom a i events = Done i' ->
    emf (hooks i') = emf (hooks i) /\ prevPhi (hooks i') = prevPhi (hooks i).
Proof.
  induction events as [| e rest IH]; intros i i' N R; cbn in R.
  - injection R as <-. split; reflexivity.
  - destruct (step a i e) as [j | err] eqn:E; cbn in R; [| discriminate].
    assert (Ne : e <> Tick) by (intros ->; apply N; left; reflexivity).
    destruct (step_keeps_emf a i j e Ne E) as [H1 H2].
    destruct (IH j i') as [H3 H4]; [| exact R |].
    + intros H. apply N. right. exact H.
    + split; congruence.
Qed.

Lemma emf_changes_only_at_ticks_witness :
  exists i',
    runFrom true mount [ValueChange 5; Resolved; ValueChange 0.5; Unmount]
    = Done i'
    /\ emf (hooks i') = emf (hooks mount)
    /\ prevPhi (hooks i') = prevPhi (hooks mount).
Proof.
  eexists. split.
  - reflexivity.
  - apply (emf_changes_only_at_ticks
             true [ValueChange 5; Resolved; ValueChange 0.5; Unmount]).
    + intros [H | [H | [H | [H | []]]]]; discriminate.
    + reflexivity.
Defined.

Lemma emfRow_by_sign (e : R) :
  (0 < e -> emfRow e = [arrowLongLeft; emfLabel e])
  /\ (e < 0 -> emfRow e = [emfLabel e; arrowLongRight])
  /\ (e = 0 -> emfRow e = [emfLabel e]).
Proof.
  unfold emfRow, jsx_and.
  repeat split; intros H; tests; try reflexivity; lra.
Qed.

Lemma tick_hooks (a : bool) (i : Instance) :
  interval i = true -> mounted i = true -> savedCallback i = hooks i ->
  step a i Tick = Done (update (calculateEmf (hooks i)) i)
  /\ hooks (update (calculateEmf (hooks i)) i)
     = calculateEmf (hooks i) (hooks i).
Proof.
  intros T M S. split.
  - cbn. rewrite T, S. reflexivity.
  - unfold update. rewrite M. unfold rerender.
    cbn [hooks withHooks withSavedCallback].
    rewrite fluxDeps_unchanged by reflexivity. reflexivity.
Qed.

Lemma tick_keeps_running (a : bool) (i : Instance) (f : State -> State) :
  Consistent i -> Consistent (update f i)
  /\ interval (update f i) = interval i
  /\ mounted (update f i) = mounted i.
Proof.
  intros C. split; [apply update_consistent; exact C |].
  unfold update. destruct (mounted i) eqn:M; split; try reflexivity;
    cbn; exact M.
Qed.

(** X4: two timer ticks in a row, with no other event between them, leave
    the stored EMF at 0, so the indicator row shows the label without an
    arrow. *)
Theorem two_ticks_zero_emf (a : bool) (events : list Event) (i : Instance) :
  run a events = Done i ->
  interval i = true ->
  exists i'',
    runFrom a i [Tick; Tick] = Done i''
    /\ emf (hooks i'') = 0
    /\ prevPhi (hooks i'') = phi (hooks i'')
    /\ phi (hooks i'') = phi (hooks i)
    /\ emfRow (emf (hooks i'')) = [emfLabel 0].
Proof.
  intros R T.
  pose proof (run_consistent _ _ _ R) as C.
  assert (M : mounted i = true).
  { destruct C as [_ TM _ _ _]. congruence. }
  destruct (tick_hooks a i T M (saved_is_current i C)) as [S1 H1].
  set (i1 := update (calculateEmf (hooks i)) i) in *.
  destruct (tick_keeps_running a i (calculateEmf (hooks i)) C)
    as (C1 & T1 & M1).
  fold i1 in C1, T1, M1. rewrite T in T1. rewrite M in M1.
  destruct (tick_hooks a i1 T1 M1 (saved_is_current i1 C1)) as [S2 H2].
  exists (update (calculateEmf (hooks i1)) i1).
  assert (E0 : emf (hooks (update (calculateEmf (hooks i1)) i1)) = 0).
  { rewrite H2, H1. cbn. lra. }
  split.
  { cbn [runFrom]. rewrite S1. cbn [bind]. rewrite S2. reflexivity. }
  split; [exact E0 |].
  split; [rewrite H2, H1; reflexivity |].
  split; [rewrite H2, H1; reflexivity |].
  rewrite E0. apply (emfRow_by_sign 0). reflexivity.
Qed.

Lemma two_ticks_zero_emf_witness :
  exists i'',
    runFrom true (update (onValueChange 5) mount) [Tick; Tick] = Done i''
    /\ emf (hooks i'') = 0
    /\ prevPhi (hooks i'') = phi (hooks i'')
    /\ phi (hooks i'') = phi (hooks (update (onValueChange 5) mount))
    /\ emfRow (emf (hooks i'')) = [emfLabel 0].
Proof.
  apply (two_ticks_zero_emf true [ValueChange 5]).
  - reflexivity.
  - reflexivity.
Defined.

(** X5: after a timer tick the indicator row shows the left arrow exactly
    when the flux has fallen since the previous sample, the right arrow
    exactly when it has risen, and no arrow when it is unchanged. *)
Theorem arrow_follows_flux_change
        (a : bool) (events : list Event) (i : Instance) :
  run a events = Done i ->
  interval i = true ->
  exists i',
    step a i Tick = Done i'
    /\ (phi (hooks i) < prevPhi (hooks i) ->
        emfRow (emf (hooks i')) = [arrowLongLeft; emfLabel (emf (hooks i'))])
    /\ (prevPhi (hooks i) < phi (hooks i) ->
        emfRow (emf (hooks i')) = [emfLabel (emf (hooks i')); arrowLongRight])
    /\ (phi (hooks i) = prevPhi (hooks i) ->
        emfRow (emf (hooks i')) = [emfLabel (emf (hooks i'))]).
Proof.
  intros R T.
  pose proof (run_consistent _ _ _ R) as C.
  assert (M : mounted i = true).
  { destruct C as [_ TM _ _ _]. congruence. }
  destruct (tick_hooks a i T M (saved_is_current i C)) as [S1 H1].
  eexists. split; [exact S1 |].
  rewrite H1.
  assert (E : emf (calculateEmf (hooks i) (hooks i))
              = -1 * 10 * ((phi (hooks i) - prevPhi (hooks i)) / 1))
    by reflexivity.
  rewrite E.
  repeat split; intros H; apply emfRow_by_sign; lra.
Qed.

(** The tick after a tick: the flux is unchanged, no arrow is shown. *)
Lemma arrow_follows_flux_change_witness :
  exists i',
    step true (update (calculateEmf (hooks mount)) mount) Tick = Done i'
    /\ emfRow (emf (hooks i')) = [emfLabel (emf (hooks i'))].
Proof.
  destruct (arrow_follows_flux_change
              true [Tick] (update (calculateEmf (hooks mount)) mount)
              eq_refl eq_refl) as (i' & S & _ & _ & H).
  exists i'. split; [exact S |].
  apply H.
  destruct (tick_hooks true mount eq_refl eq_refl eq_refl) as [_ Hh].
  rewrite Hh. reflexivity.
Defined.

(** ** The motion listener on reachable screens *)

(** X6: on every reachable mounted screen whose listener is registered, a
    measurement of [b] radians is stored as [b * 180 / PI] degrees exactly
    when that angle is at least 1 degree away from 0, whatever tilt angle is
    stored; otherwise the stored angle stays. *)
Theorem motion_stored_iff_away_from_zero
        (a : bool) (events : list Event) (i : Instance) (b : R) :
  run a events = Done i ->
  registered i = true -> mounted i = true ->
  exists i',
    step a i (Motion (measurement b)) = Done i'
    /\ (Rabs ((b * 180) / PI) >= 1 -> theta (hooks i') = (b * 180) / PI)
    /\ (Rabs ((b * 180) / PI) < 1 -> hooks i' = hooks i).
Proof.
  intros R G M.
  destruct (run_consistent _ _ _ R) as [_ _ _ L S].
  specialize (S G).
  destruct (subscriber i) as [r |] eqn:E; [| contradiction].
  rewrite (L r eq_refl) in E.
  eexists. split; [apply (motion_delivered a i initialState b E G) |].
  cbn [theta initialState].
  replace (Rabs (0 - b * 180 / PI)) with (Rabs (b * 180 / PI))
    by (rewrite <- Rabs_Ropp; f_equal; lra).
  destruct (Rgeb_spec (Rabs (b * 180 / PI)) 1) as [Q | Q]; split; intros H;
    try lra.
  - rewrite theta_update by exact M. reflexivity.
  - rewrite hooks_update by exact M.
    rewrite fluxDeps_unchanged by reflexivity. reflexivity.
Qed.

Lemma motion_stored_iff_away_from_zero_witness :
  exists i',
    step true (onResolved true initialState mount)
         (Motion (measurement (30 * PI / 180)))
    = Done i'
    /\ theta (hooks i') = ((30 * PI / 180) * 180) / PI.
Proof.
  destruct (motion_stored_iff_away_from_zero
              true [Resolved] (onResolved true initialState mount)
              (30 * PI / 180) eq_refl eq_refl eq_refl) as (i' & S & H & _).
  exists i'. split; [exact S |].
  apply H. rewrite angle_of_degrees, Rabs_pos_eq; lra.
Defined.

Lemma update_theta_zone (f : State -> State) (i : Instance) (P : R -> Prop) :
  P (theta (hooks i)) ->
  (mounted i = true -> P (theta (f (hooks i)))) ->
  P (theta (hooks (update f i))).
Proof.
  intros H F. destruct (mounted i) eqn:M.
  - rewrite theta_update by exact M. apply F. reflexivity.
  - unfold update. rewrite M. exact H.
Qed.

Lemma step_theta_zone (a : bool) (i i' : Instance) (e : Event) (P : R -> Prop) :
  (forall x, Rabs x >= 1 -> P x) ->
  Consistent i -> P (theta (hooks i)) -> step a i e = Done i' ->
  P (theta (hooks i')).
Proof.
  intros Big C H S. destruct e as [| data | | v |]; cbn in S.
  - destruct (pending i) as [r |]; injection S as <-; [| exact H].
    unfold onResolved. destruct a; exact H.
  - destruct (subscriber i) as [r |] eqn:E; [| injection S as <-; exact H].
    destruct (registered i); [| injection S as <-; exact H].
    rewrite (subscriber_from_mount i C r E) in S.
    unfold listener in S. destruct (rotationBeta data) as [b | err];
      cbn in S; [| discriminate].
    destruct (Rgeb_spec (Rabs (0 - b * 180 / PI)) 1) as [Q | Q];
      injection S as <-; apply update_theta_zone; auto.
    intros _. cbn. apply Big.
    replace (b * 180 / PI) with (- (0 - b * 180 / PI)) by lra.
    rewrite Rabs_Ropp. exact Q.
  - destruct (interval i); injection S as <-; [| exact H].
    apply update_theta_zone; auto.
  - destruct (mounted i) eqn:M; injection S as <-; [| exact H].
    apply update_theta_zone; auto.
  - destruct (mounted i); injection S as <-; [| exact H].
    unfold cleanup. destruct (subscriber i); exact H.
Qed.

Lemma runFrom_theta_zone (a : bool) (events : list Event) (P : R -> Prop) :
  (forall x, Rabs x >= 1 -> P x) ->
  forall i i',
    Consistent i -> P (theta (hooks i)) -> runFrom a i events = Done i' ->
    P (theta (hooks i')).
Proof.
  intros Big.
  induction events as [| e rest IH]; intros i i' C H R; cbn in R.
  - injection R as <-. exact H.
  - destruct (step a i e) as [j | err] eqn:E; cbn in R; [| discriminate].
    apply (IH j i'); [| | exact R].
    + apply (step_consistent a i j e C E).
    + apply (step_theta_zone a i j e P Big C H E).
Qed.

(** X7: the stored tilt angle is never strictly between -1 and 1 degree
    except for its initial value 0; and once it has left 0 it stays at least
    1 degree away from 0 under every further sequence of events. *)
Theorem theta_dead_zone (a : bool) (events later : list Event) (i j : Instance) :
  run a events = Done i ->
  runFrom a i later = Done j ->
  (theta (hooks i) = 0 \/ Rabs (theta (hooks i)) >= 1)
  /\ (theta (hooks i) <> 0 -> Rabs (theta (hooks j)) >= 1).
Proof.
  intros R L. pose proof (run_consistent _ _ _ R) as C.
  assert (Z : theta (hooks i) = 0 \/ Rabs (theta (hooks i)) >= 1).
  { apply (runFrom_theta_zone a events (fun x => x = 0 \/ Rabs x >= 1))
      with (i := mount); [| apply mount_consistent | | exact R].
    - intros x Hx. right. exact Hx.
    - left. reflexivity. }
  split; [exact Z |].
  intros N.
  apply (runFrom_theta_zone a later (fun x => Rabs x >= 1))
    with (i := i); [| exact C | | exact L].
  - intros x Hx. exact Hx.
  - destruct Z as [Z | Z]; [contradiction | exact Z].
Qed.

Lemma run_first_reading_45 :
  run true [Resolved; Motion (measurement (45 * PI / 180))]
  = Done (update (setTheta 45) (onResolved true initialState mount)).
Proof.
  unfold run. cbn [runFrom].
  change (step true mount Resolved)
    with (Done (onResolved true initialState mount)).
  cbn [bind].
  rewrite (motion_delivered true (onResolved true initialState mount)
                            initialState _ eq_refl eq_refl).
  rewrite angle_of_degrees. cbn [theta initialState].
  destruct (Rgeb_spec (Rabs (0 - 45)) 1) as [G | G]; [reflexivity |].
  exfalso. apply G. rewrite Rabs_left by lra. lra.
Qed.

(** A first reading of 45 degrees, then unmount. *)
Lemma theta_dead_zone_witness :
  Rabs (theta (hooks (cleanup (update (setTheta 45)
                                      (onResolved true initialState mount)))))
  >= 1.
Proof.
  apply (proj2 (theta_dead_zone
                  true [Resolved; Motion (measurement (45 * PI / 180))]
                  [Unmount]
                  (update (setTheta 45) (onResolved true initialState mount))
                  (cleanup (update (setTheta 45)
                                   (onResolved true initialState mount)))
                  run_first_reading_45 eq_refl)).
  rewrite theta_update by reflexivity. cbn. lra.
Defined.

(** X8: a measurement without the [rotation] property throws a TypeError
    whenever a listener is registered, and any measurement is ignored, with
    the instance unchanged, when none is registered. *)
Theorem malformed_measurement
        (a : bool) (events : list Event) (i : Instance) :
  run a events = Done i ->
  (registered i = true ->
   exists msg, step a i (Motion {| rotation := None |}) = Thrown (TypeError msg))
  /\ (registered i = false ->
      forall data, step a i (Motion data) = Done i).
Proof.
  intros R. destruct (run_consistent _ _ _ R) as [_ _ _ _ S].
  split.
  - intros G. specialize (S G).
    destruct (subscriber i) as [r |] eqn:E; [| contradiction].
    eexists. cbn. rewrite E, G. reflexivity.
  - intros G data. cbn. rewrite G. destruct (subscriber i); reflexivity.
Qed.

Lemma malformed_measurement_witness :
  (exists msg,
      step true (onResolved true initialState mount)
           (Motion {| rotation := None |})
      = Thrown (TypeError msg))
  /\ (forall data, step true mount (Motion data) = Done mount).
Proof.
  split.
  - apply (proj1 (malformed_measurement
                    true [Resolved] (onResolved true initialState mount)
                    eq_refl)).
    reflexivity.
  - apply (proj2 (malformed_measurement true [] mount eq_refl)).
    reflexivity.
Defined.

(** ** Subscriptions over the life of the screen *)

Lemma mount_accounted : Accounted mount.
Proof.
  constructor; cbn; try reflexivity; intros; congruence.
Qed.

Lemma update_accounted (f : State -> State) (i : Instance) :
  Accounted i -> Accounted (update f i).
Proof.
  intros A. unfold update. destruct (mounted i) eqn:M; [| exact A].
  destruct A as [A1 A2 A3 A4 A5 A6 A7 A8].
  constructor; unfold countCalls in *; cbn; assumption.
Qed.

Lemma step_accounted (a : bool) (i i' : Instance) (e : Event) :
  Accounted i -> step a i e = Done i' -> Accounted i'.
Proof.
  intros A S. destruct e as [| data | | v |]; cbn in S.
  - destruct (pending i) as [r |] eqn:P; injection S as <-; [| exact A].
    destruct A as [A1 A2 A3 A4 A5 A6 A7 A8].
    assert (N : subscriber i = None).
    { destruct (subscriber i) eqn:E; [| reflexivity].
      assert (pending i = None) by (apply A7; discriminate).
      congruence. }
    rewrite N in A4, A6. unfold onResolved.
    destruct a; constructor; unfold countCalls in *; cbn;
      try rewrite N; try assumption; try reflexivity; try congruence.
  - destruct (subscriber i) as [r |]; [| injection S as <-; exact A].
    destruct (registered i); [| injection S as <-; exact A].
    destruct (listener r data) as [f | err]; cbn in S; [| discriminate].
    injection S as <-. apply update_accounted. exact A.
  - destruct (interval i); injection S as <-;
      [apply update_accounted |]; exact A.
  - destruct (mounted i); injection S as <-;
      [apply update_accounted |]; exact A.
  - destruct (mounted i) eqn:M; injection S as <-; [| exact A].
    destruct A as [A1 A2 A3 A4 A5 A6 A7 A8]. rewrite M in A3.
    unfold cleanup. destruct (subscriber i) as [r |] eqn:E.
    + assert (G : registered i = true) by (apply A8; congruence).
      rewrite G in A6.
      constructor; unfold countCalls in *; cbn; try rewrite E;
        try assumption; try congruence.
    + constructor; unfold countCalls in *; cbn; try rewrite E;
        try assumption; try congruence.
Qed.

Lemma runFrom_accounted (a : bool) (events : list Event) :
  forall i i', Accounted i -> runFrom a i events = Done i' -> Accounted i'.
Proof.
  induction events as [| e rest IH]; intros i i' A R; cbn in R.
  - injection R as <-. exact A.
  - destruct (step a i e) as [j | err] eqn:E; cbn in R; [| discriminate].
    apply (IH j i'); [| exact R]. apply (step_accounted a i j e A E).
Qed.

(** X9: whatever happens, [setInterval] and [isAvailableAsync] are called
    exactly once, [clearInterval] exactly once after unmount and not before,
    [addListener] at most once and always together with
    [setUpdateInterval], and [remove] at most once and never without an
    [addListener]. *)
Theorem subscriptions_accounted (a : bool) (events : list Event) (i : Instance) :
  run a events = Done i ->
  countCalls isSetInterval i = 1%nat
  /\ countCalls isIsAvailableAsync i = 1%nat
  /\ countCalls isClearInterval i = (if mounted i then 0%nat else 1%nat)
  /\ (countCalls isAddListener i <= 1)%nat
  /\ countCalls isSetUpdateInterval i = countCalls isAddListener i
  /\ (countCalls isRemove i <= countCalls isAddListener i)%nat.
Proof.
  intros R.
  destruct (runFrom_accounted a events mount i mount_accounted R)
    as [A1 A2 A3 A4 A5 A6 A7 A8].
  repeat split; try assumption.
  - rewrite A4. destruct (subscriber i); lia.
  - rewrite A4, A6. destruct (subscriber i); [| lia].
    destruct (registered i); lia.
Qed.

Lemma subscriptions_accounted_witness :
  exists i,
    run true [Resolved; Tick; Unmount; Unmount; Resolved; Tick] = Done i
    /\ countCalls isSetInterval i = 1%nat
    /\ countCalls isIsAvailableAsync i = 1%nat
    /\ countCalls isClearInterval i = (if mounted i then 0%nat else 1%nat)
    /\ (countCalls isAddListener i <= 1)%nat
    /\ countCalls isSetUpdateInterval i = countCalls isAddListener i
    /\ (countCalls isRemove i <= countCalls isAddListener i)%nat.
Proof.
  eexists. split.
  - reflexivity.
  - apply (subscriptions_accounted
             true [Resolved; Tick; Unmount; Unmount; Resolved; Tick]).
    reflexivity.
Defined.


Lemma update_unmounted (f : State -> State) (i : Instance) :
  mounted i = false -> update f i = i.
Proof. intros M. unfold update. rewrite M. reflexivity. Qed.

Lemma update_unsettled (f : State -> State) (i : Instance) :
  Unsettled i -> Unsettled (update f i).
Proof.
  intros U. unfold update. destruct (mounted i); [| exact U].
  destruct U as [U1 U2 U3 U4]. constructor; cbn; assumption.
Qed.

Lemma update_mounted (f : State -> State) (i : Instance) :
  mounted (update f i) = mounted i.
Proof. unfold update. destruct (mounted i) eqn:M; cbn; congruence. Qed.

Lemma step_unsettled (a : bool) (i i' : Instance) (e : Event) :
  e <> Resolved -> Unsettled i -> step a i e = Done i' ->
  Unsettled i' /\ (mounted i = false -> mounted i' = false).
Proof.
  intros N U S. pose proof U as [U1 U2 U3 U4].
  destruct e as [| data | | v |]; cbn in S.
  - contradiction.
  - rewrite U2 in S. injection S as <-. split; [exact U | auto].
  - destruct (interval i); injection S as <-; [| split; [exact U | auto]].
    split; [apply update_unsettled; exact U |].
    rewrite update_mounted. auto.
  - destruct (mounted i) eqn:M; injection S as <-; [| split; [exact U | auto]].
    split; [apply update_unsettled; exact U |]. discriminate.
  - destruct (mounted i) eqn:M; injection S as <-; [| split; [exact U | auto]].
    split; [| intros _; unfold cleanup; rewrite U2; reflexivity].
    unfold cleanup. rewrite U2.
    constructor; cbn; try assumption; try reflexivity.
    intros [H | H]; [discriminate | exact (U4 H)].
Qed.

Lemma runFrom_unsettled (a : bool) (events : list Event) :
  forall i i',
    ~ In Resolved events -> Unsettled i -> runFrom a i events = Done i' ->
    Unsettled i'.
Proof.
  induction events as [| e rest IH]; intros i i' N U R; cbn in R.
  - injection R as <-. exact U.
  - destruct (step a i e) as [j | err] eqn:E; cbn in R; [| discriminate].
    assert (Ne : e <> Resolved) by (intros ->; apply N; left; reflexivity).
    apply (IH j i'); [| | exact R].
    + intros H. apply N. right. exact H.
    + apply (step_unsettled a i j e Ne U E).
Qed.

Lemma step_leaked (a : bool) (i i' : Instance) (e : Event) :
  Leaked i -> step a i e = Done i' -> Leaked i'.
Proof.
  intros L S. pose proof L as [L1 L2 L3 L4 L5].
  destruct e as [| data | | v |]; cbn in S.
  - rewrite L2 in S. injection S as <-. exact L.
  - destruct (subscriber i) as [r |]; [| injection S as <-; exact L].
    rewrite L3 in S.
    destruct (listener r data) as [f | err]; cbn in S; [| discriminate].
    injection S as <-. rewrite update_unmounted by exact L1. exact L.
  - destruct (interval i); injection S as <-; [| exact L].
    rewrite update_unmounted by exact L1. exact L.
  - rewrite L1 in S. injection S as <-. exact L.
  - rewrite L1 in S. injection S as <-. exact L.
Qed.

Lemma runFrom_leaked (a : bool) (events : list Event) :
  forall i i', Leaked i -> runFrom a i events = Done i' -> Leaked i'.
Proof.
  induction events as [| e rest IH]; intros i i' L R; cbn in R.
  - injection R as <-. exact L.
  - destruct (step a i e) as [j | err] eqn:E; cbn in R; [| discriminate].
    apply (IH j i'); [| exact R]. apply (step_leaked a i j e L E).
Qed.

Lemma mount_unsettled : Unsettled mount.
Proof.
  constructor; cbn; try reflexivity; try discriminate.
  intros [H | [H | []]]; discriminate.
Qed.

(** X10: if the screen is unmounted before the availability promise
    resolves and the sensor is available, the listener is added after the
    cleanup has run, stays registered and is never removed, whatever
    follows. *)
Theorem listener_leaks_when_unmounted_first
        (before after : list Event) (i : Instance) :
  ~ In Resolved before ->
  run true (before ++ Unmount :: Resolved :: after) = Done i ->
  mounted i = false
  /\ registered i = true
  /\ In addListener (calls i)
  /\ ~ In remove (calls i).
Proof.
  intros N R. unfold run in R. rewrite runFrom_app in R.
  destruct (runFrom true mount before) as [j1 | err] eqn:E1;
    cbn [bind] in R; [| discriminate].
  pose proof (runFrom_unsettled true before mount j1 N mount_unsettled E1)
    as U1.
  cbn [runFrom] in R.
  destruct (step true j1 Unmount) as [j2 | err] eqn:E2;
    cbn [bind] in R; [| discriminate].
  assert (U2 : Unsettled j2 /\ mounted j2 = false).
  { cbn in E2. destruct (mounted j1) eqn:M; injection E2 as <-.
    - split; [| unfold cleanup; destruct (subscriber j1); reflexivity].
      destruct U1 as [P S G H]. unfold cleanup. rewrite S.
      constructor; cbn; try assumption; try reflexivity.
      intros [Q | Q]; [discriminate | exact (H Q)].
    - split; assumption. }
  destruct U2 as [[P S G H] M2].
  destruct (step true j2 Resolved) as [j3 | err] eqn:E3;
    cbn [bind] in R; [| discriminate].
  assert (L3 : Leaked j3).
  { cbn in E3. destruct (pending j2) as [r |]; [| contradiction].
    injection E3 as <-. constructor; cbn; try assumption; try reflexivity.
    - left. reflexivity.
    - intros [Q | [Q | Q]]; [discriminate | discriminate | exact (H Q)]. }
  destruct (runFrom_leaked true after j3 i L3 R) as [L1 L2 L4 L5 L6].
  repeat split; assumption.
Qed.

Lemma listener_leaks_when_unmounted_first_witness :
  exists i,
    run true ([Tick; ValueChange 3] ++ Unmount :: Resolved :: [Tick; Unmount])
    = Done i
    /\ mounted i = false
    /\ registered i = true
    /\ In addListener (calls i)
    /\ ~ In remove (calls i).
Proof.
  eexists. split.
  - reflexivity.
  - apply (listener_leaks_when_unmounted_first
             [Tick; ValueChange 3] [Tick; Unmount]).
    + intros [H | [H | []]]; discriminate.
    + reflexivity.
Defined.

Lemma step_inert (a : bool) (i : Instance) (e : Event) :
  mounted i = false -> interval i = false ->
  pending i = None -> registered i = false ->
  step a i e = Done i.
Proof.
  intros M T P G. destruct e as [| data | | v |]; cbn.
  - rewrite P. reflexivity.
  - rewrite G. destruct (subscriber i); reflexivity.
  - rewrite T. reflexivity.
  - rewrite M. reflexivity.
  - rewrite M. reflexivity.
Qed.

Lemma runFrom_inert (a : bool) (events : list Event) (i : Instance) :
  mounted i = false -> interval i = false ->
  pending i = None -> registered i = false ->
  runFrom a i events = Done i.
Proof.
  intros M T P G. induction events as [| e rest IH]; cbn.
  - reflexivity.
  - rewrite step_inert by assumption. cbn. exact IH.
Qed.

(** X11: once the availability promise has settled, unmounting ends
    everything: the timer is cleared, the listener (if one was added) is
    removed, and every later event, of any kind and in any number, leaves
    the instance as the cleanup left it and throws nothing. *)
Theorem unmount_is_final (a : bool) (events later : list Event) (i : Instance) :
  run a events = Done i ->
  mounted i = true ->
  pending i = None ->
  run a (events ++ Unmount :: later) = Done (cleanup i)
  /\ hooks (cleanup i) = hooks i
  /\ In clearInterval (calls (cleanup i))
  /\ registered (cleanup i) = false
  /\ (subscriber i <> None -> In remove (calls (cleanup i))).
Proof.
  intros R M P.
  destruct (run_consistent _ _ _ R) as [_ _ _ _ S].
  assert (G : registered (cleanup i) = false).
  { unfold cleanup. destruct (subscriber i) eqn:E; cbn; [reflexivity |].
    destruct (registered i); [| reflexivity].
    exfalso. apply S; reflexivity. }
  split.
  { unfold run in *. rewrite runFrom_app, R. cbn [bind runFrom step].
    rewrite M. cbn [bind]. apply runFrom_inert.
    - unfold cleanup. destruct (subscriber i); reflexivity.
    - unfold cleanup. destruct (subscriber i); reflexivity.
    - unfold cleanup. destruct (subscriber i); exact P.
    - exact G. }
  split; [unfold cleanup; destruct (subscriber i); reflexivity |].
  split; [unfold cleanup; destruct (subscriber i); cbn; auto |].
  split; [exact G |].
  intros N. unfold cleanup. destruct (subscriber i); [| contradiction].
  cbn. left. reflexivity.
Qed.

Lemma unmount_is_final_witness :
  let i := update (onValueChange 4) (onResolved true initialState mount) in
  run true ([Resolved; ValueChange 4]
              ++ Unmount :: [Tick; Motion {| rotation := None |};
                             ValueChange 9; Resolved; Unmount])
  = Done (cleanup i)
  /\ hooks (cleanup i) = hooks i
  /\ In clearInterval (calls (cleanup i))
  /\ registered (cleanup i) = false
  /\ (subscriber i <> None -> In remove (calls (cleanup i))).
Proof.
  apply (unmount_is_final true [Resolved; ValueChange 4]).
  - reflexivity.
  - reflexivity.
  - reflexivity.
Defined.

(** * Further properties of the rendered grid *)

Lemma fieldLines_In (theta B : R) (e : Element) :
  In e (fieldLines theta B) ->
  exists index : nat,
    (index < 50)%nat
    /\ e = (if (index mod 2 =? 0)%nat
            then glyphCell theta B index
            else spacer index).
Proof.
  unfold fieldLines. intros H. apply in_map_iff in H.
  destruct H as (index & <- & I). apply in_seq in I.
  exists index. split; [lia | reflexivity].
Qed.

(** X12: the slots of the grid carry the keys 0, 1, ..., 49 in this order,
    so no two slots share a key. *)
Theorem fieldLines_keys (theta B : R) :
  map elementKey (fieldLines theta B) = map Some (seq 0 50)
  /\ NoDup (map elementKey (fieldLines theta B)).
Proof.
  assert (K : map elementKey (fieldLines theta B) = map Some (seq 0 50)).
  { unfold fieldLines. rewrite map_map. apply map_ext.
    intros index. destruct (index mod 2 =? 0)%nat; reflexivity. }
  split; [exact K |].
  rewrite K. apply NoDup_map_NoDup_ForallPairs; [| apply seq_NoDup].
  intros x y _ _ H. congruence.
Qed.

(** X13: for a field strength within the slider range 0 to 10, every glyph
    cell of the grid has opacity [fieldStrength / 10], a number between 0
    and 1 that is 0 only for field strength 0 and 1 only for field strength
    10; spacers carry no opacity. *)
Theorem glyph_opacity (theta B : R) (e : Element) :
  0 <= B <= 10 ->
  In e (fieldLines theta B) ->
  (rendersGlyph e = true ->
   viewOpacity e = Some (B / 10)
   /\ 0 <= B / 10 <= 1
   /\ (B / 10 = 0 <-> B = 0)
   /\ (B / 10 = 1 <-> B = 10))
  /\ (rendersGlyph e = false -> viewOpacity e = None).
Proof.
  intros HB H. destruct (fieldLines_In theta B e H) as (index & _ & ->).
  destruct (index mod 2 =? 0)%nat; cbn; split; intros G;
    try discriminate; try reflexivity.
  split; [reflexivity |]. split; [lra |]. split; split; lra.
Qed.

Lemma glyph_opacity_witness :
  viewOpacity (glyphCell 30 5 0) = Some (5 / 10)
  /\ 0 <= 5 / 10 <= 1
  /\ (5 / 10 = 0 <-> 5 = 0)
  /\ (5 / 10 = 1 <-> 5 = 10).
Proof.
  destruct (glyph_opacity 30 5 (glyphCell 30 5 0)) as [H _].
  - lra.
  - unfold fieldLines. cbn [seq map]. left. reflexivity.
  - apply H. reflexivity.
Defined.

(** X14: the height of a glyph cell always lies strictly between 40/9 and
    680/9 and its vertical margin strictly between -160/9 and 160/9; the
    cell is taller than the 40-unit row exactly for tilt angles strictly
    between -80 and 0. *)
Theorem cell_height_bounds (theta : R) :
  40 / 9 < cellHeight theta < 680 / 9
  /\ -160 / 9 < cellMarginVertical theta < 160 / 9
  /\ (40 < cellHeight theta <-> -80 < theta < 0).
Proof.
  destruct (Rle_dec theta (-80)) as [L | L].
  { destruct (cell_at_extremes theta) as [-> ->]; [left; exact L |].
    repeat split; try lra. }
  destruct (Rge_dec theta 80) as [G | G].
  { destruct (cell_at_extremes theta) as [-> ->]; [right; exact G |].
    repeat split; try lra. }
  assert (I : -80 < theta < 80) by lra.
  destruct (cell_inside theta I) as [-> ->].
  rewrite (arrowHeight_below_90 theta I).
  repeat split; try lra.
Qed.

(** X15: a glyph cell has one of two complete forms: at the extremes
    ([theta <= -80] or [theta >= 80]) height 20, vertical and horizontal
    margin 10 and an icon of size 20; otherwise the arrow height, the
    centring vertical margin, no horizontal margin and the long down arrow
    of size 40.  Padding 15, hidden overflow and the opacity are common. *)
Theorem glyphCell_forms (theta B : R) (index : nat) :
  (theta <= -80 \/ theta >= 80 ->
   glyphCell theta B index
   = View (Some index)
          {| height := Some 20; width := None; marginVertical := Some 10;
             marginHorizontal := Some 10; marginRight := None;
             paddingHorizontal := Some 15; opacity := Some (B / 10);
             fontSize := None; overflow := Some "hidden"%string |}
          [Entypo (glyphName theta) 20 "blue"])
  /\ (-80 < theta < 80 ->
      glyphCell theta B index
      = View (Some index)
             {| height := Some ((Rabs (90 - theta) / 90) * 40);
                width := None;
                marginVertical :=
                  Some ((40 - (Rabs (90 - theta) / 90) * 40) / 2);
                marginHorizontal := None; marginRight := None;
                paddingHorizontal := Some 15; opacity := Some (B / 10);
                fontSize := None; overflow := Some "hidden"%string |}
             [Entypo "arrow-long-down" 40 "blue"]).
Proof.
  split; intros H.
  - unfold glyphCell, glyph, glyphSize, cellHeight, cellMarginVertical,
      cellMarginHorizontal.
    rewrite (orb_comm (outOfScreen theta)), at_extremes by exact H.
    reflexivity.
  - unfold glyphCell, glyph, glyphSize, glyphName, cellHeight,
      cellMarginVertical, cellMarginHorizontal.
    rewrite (orb_comm (outOfScreen theta)), arrowHeight_inside by exact H.
    rewrite not_extremes by exact H.
    destruct (outOfScreen theta) eqn:O; destruct (intoScreen theta) eqn:N;
      try reflexivity;
      pose proof (not_extremes theta H) as Q; rewrite O, N in Q;
      discriminate.
Qed.

Lemma glyphCell_forms_witness :
  glyphCell 85 2 4
  = View (Some 4%nat)
         {| height := Some 20; width := None; marginVertical := Some 10;
            marginHorizontal := Some 10; marginRight := None;
            paddingHorizontal := Some 15; opacity := Some (2 / 10);
            fontSize := None; overflow := Some "hidden"%string |}
         [Entypo (glyphName 85) 20 "blue"]
  /\ glyphCell 30 2 4
     = View (Some 4%nat)
            {| height := Some ((Rabs (90 - 30) / 90) * 40);
               width := None;
               marginVertical := Some ((40 - (Rabs (90 - 30) / 90) * 40) / 2);
               marginHorizontal := None; marginRight := None;
               paddingHorizontal := Some 15; opacity := Some (2 / 10);
               fontSize := None; overflow := Some "hidden"%string |}
            [Entypo "arrow-long-down" 40 "blue"].
Proof.
  split.
  - apply (proj1 (glyphCell_forms 85 2 4)). right. lra.
  - apply (proj2 (glyphCell_forms 30 2 4)). lra.
Defined.

(** * Further properties of the flux formula *)

Lemma calculateFlux_sin (B A d : R) :
  calculateFlux B A d = B * A * sin (d * PI / 180).
Proof.
  unfold calculateFlux. f_equal.
  replace ((d - 90) * PI / 180) with (- (PI / 2 - d * PI / 180)) by lra.
  rewrite cos_neg. apply cos_shift.
Qed.

Lemma calculateFlux_90 (B A : R) : calculateFlux B A 90 = B * A.
Proof.
  unfold calculateFlux.
  replace ((90 - 90) * PI / 180) with 0 by lra. rewrite cos_0. lra.
Qed.

Lemma calculateFlux_abs_le (B A d : R) :
  Rabs (calculateFlux B A d) <= Rabs B * Rabs A.
Proof.
  unfold calculateFlux. rewrite !Rabs_mult.
  pose proof (COS_bound ((d - 90) * PI / 180)) as [Lo Hi].
  assert (C : Rabs (cos ((d - 90) * PI / 180)) <= 1)
    by (apply Rabs_le; split; assumption).
  pose proof (Rabs_pos B). pose proof (Rabs_pos A).
  assert (0 <= Rabs B * Rabs A) by (apply Rmult_le_pos; assumption).
  rewrite <- (Rmult_1_r (Rabs B * Rabs A)) at 2.
  apply Rmult_le_compat_l; assumption.
Qed.

(** X16: the flux never exceeds [|B| * |A|] in absolute value; for
    non-negative field strength and area it is largest at 90 degrees, where
    it is [B * A], and it is non-negative for every angle from 0 to 180
    degrees. *)
Theorem flux_bounds (B A d : R) :
  Rabs (calculateFlux B A d) <= Rabs B * Rabs A
  /\ (0 <= B -> 0 <= A ->
      calculateFlux B A d <= calculateFlux B A 90
      /\ calculateFlux B A 90 = B * A)
  /\ (0 <= B -> 0 <= A -> 0 <= d <= 180 -> 0 <= calculateFlux B A d).
Proof.
  split; [apply calculateFlux_abs_le |]. split.
  - intros HB HA. rewrite calculateFlux_90. split; [| reflexivity].
    pose proof (calculateFlux_abs_le B A d) as H.
    rewrite (Rabs_pos_eq B), (Rabs_pos_eq A) in H by assumption.
    pose proof (Rle_abs (calculateFlux B A d)). lra.
  - intros HB HA Hd. rewrite calculateFlux_sin.
    apply Rmult_le_pos; [apply Rmult_le_pos; assumption |].
    pose proof PI_RGT_0 as P.
    apply sin_ge_0; nra.
Qed.

Lemma flux_bounds_witness :
  (calculateFlux 2 phoneArea 30 <= calculateFlux 2 phoneArea 90
   /\ calculateFlux 2 phoneArea 90 = 2 * phoneArea)
  /\ 0 <= calculateFlux 2 phoneArea 30.
Proof.
  assert (A : 0 <= phoneArea)
    by (unfold phoneArea, screenWidthMeters, screenHeightMeters; lra).
  split.
  - apply (proj1 (proj2 (flux_bounds 2 phoneArea 30))); [lra | exact A].
  - apply (proj2 (proj2 (flux_bounds 2 phoneArea 30))); [lra | exact A | lra].
Defined.

(** X17: the flux changes sign when the tilt angle is negated, is the same
    for two angles mirrored about 90 degrees, and repeats every 360
    degrees. *)
Theorem flux_symmetries (B A d : R) :
  calculateFlux B A (- d) = - calculateFlux B A d
  /\ calculateFlux B A (180 - d) = calculateFlux B A d
  /\ calculateFlux B A (d + 360) = calculateFlux B A d.
Proof.
  split; [| split].
  - rewrite !calculateFlux_sin.
    replace (- d * PI / 180) with (- (d * PI / 180)) by lra.
    rewrite sin_neg. lra.
  - unfold calculateFlux. f_equal.
    replace ((180 - d - 90) * PI / 180) with (- ((d - 90) * PI / 180)) by lra.
    apply cos_neg.
  - unfold calculateFlux. f_equal.
    replace ((d + 360 - 90) * PI / 180)
      with ((d - 90) * PI / 180 + 2 * INR 1 * PI) by (cbn [INR]; lra).
    apply cos_period.
Qed.

(** X18: in every state the screen can reach, the stored flux is at most
    [|fieldStrength| * phoneArea] in absolute value. *)
Theorem stored_flux_bounded (a : bool) (events : list Event) (i : Instance) :
  run a events = Done i ->
  Rabs (phi (hooks i)) <= Rabs (fieldStrength (hooks i)) * phoneArea.
Proof.
  intros R. rewrite (run_fluxCurrent a events i R).
  pose proof (calculateFlux_abs_le
                (fieldStrength (hooks i)) phoneArea (theta (hooks i))) as H.
  rewrite (Rabs_pos_eq phoneArea) in H; [exact H |].
  unfold phoneArea, screenWidthMeters, screenHeightMeters. lra.
Qed.

Lemma stored_flux_bounded_witness :
  exists i,
    run true [Resolved; ValueChange 8; Tick] = Done i
    /\ Rabs (phi (hooks i)) <= Rabs (fieldStrength (hooks i)) * phoneArea.
Proof.
  eexists. split.
  - reflexivity.
  - apply (stored_flux_bounded true [Resolved; ValueChange 8; Tick]).
    reflexivity.
Defined.
